(** * Shiptivity API: the rank-maintenance engine of [PUT /api/v1/clients/:id]

    A shallow embedding of the handler registered first for the route in
    [src/server.js] (lines 107-161; the second registration of the same
    route is never reached, the first one always answers), together with
    the [validateId] helper it calls and the SQL statements it issues.

    The [clients] table is a list of rows in storage order; every
    [db.run]/[db.all]/[db.get] of the source is an operation of a small
    state monad over that table.  A response that is sent early does not
    undo the statements that ran before it: the source opens no
    transaction. *)

From stdpp Require Import list list_numbers sorting strings pretty.

Local Open Scope Z_scope.

(** ** Data model *)

(** A row of the [clients] table.  The handler reads and writes only these
    three columns. *)
Record client := Client { id : Z; status : string; priority : Z }.

Global Instance client_eq_dec : EqDecision client.
Proof. solve_decision. Defined.

(** The table, in storage order (the order of [SELECT * FROM clients]). *)
Abbreviation table := (list client).

(** The result of [parseInt(req.params.id, 10)]. *)
Inductive jsint := NaN | Int (z : Z).

Global Instance jsint_eq_dec : EqDecision jsint.
Proof. solve_decision. Defined.

(** [c.id === id]; never true for [NaN]. *)
Definition has_id (i : jsint) (c : client) : Prop := i = Int (id c).

Global Instance has_id_dec i c : Decision (has_id i c).
Proof. unfold has_id. apply _. Defined.

(** [req.params.id] after [parseInt], and the two fields read from
    [req.body], at the types the API documents for them: a string and an
    integer; [None] is a field that is absent. *)
Record request := Request {
  params_id : jsint;
  body_status : option string;
  body_priority : option Z
}.

(** What [res.status(code).send(...)] is given. *)
Inductive body :=
  | MessageObj (message : string) (long_message : option string)
  | Clients (rows : list client).

Record response := Response { code : Z; sent : body }.

(** ** The database monad *)

Definition DB (A : Type) : Type := table → A * table.

Global Instance DB_ret : MRet DB := λ A a t, (a, t).
Global Instance DB_bind : MBind DB := λ A B k m t, let '(a, t') := m t in k a t'.

(** [Array.prototype.find] *)
Definition find {A} (P : A → Prop) `{!∀ x, Decision (P x)} (l : list A) : option A :=
  snd <$> list_find P l.

(** [ORDER BY]: the rows sorted by insertion, each row put before the
    first row that does not come before it.  The sort is stable: rows that
    compare equal come out in storage order, which is the order SQLite's
    scan followed by its sort gives them (SQL itself promises none). *)
Fixpoint insert_sorted {A} (R : relation A) `{!RelDecision R}
    (x : A) (l : list A) : list A :=
  match l with
  | [] => [x]
  | y :: l' => if decide (R x y) then x :: y :: l' else y :: insert_sorted R x l'
  end.

Fixpoint order_by {A} (R : relation A) `{!RelDecision R} (l : list A) : list A :=
  match l with
  | [] => []
  | x :: l' => insert_sorted R x (order_by R l')
  end.

(** The keys of [ORDER BY priority] and of [ORDER BY status, priority]
    (text compared bytewise). *)
Definition by_priority (a b : client) : Prop := priority a ≤ priority b.

Definition by_status_priority (a b : client) : Prop :=
  if decide (status a = status b) then priority a ≤ priority b
  else String.le (status a) (status b).

Global Instance by_priority_dec : RelDecision by_priority.
Proof. intros a b. unfold by_priority. apply _. Defined.

Global Instance by_status_priority_dec : RelDecision by_status_priority.
Proof. intros a b. unfold by_status_priority. case_decide; apply _. Defined.

(** [UPDATE clients SET status = ? WHERE id = ?] *)
Definition set_status (s : string) (i : jsint) (t : table) : table :=
  (λ c, if decide (has_id i c) then Client (id c) s (priority c) else c) <$> t.

(** [UPDATE clients SET priority = ? WHERE id = ?] *)
Definition set_priority (p : Z) (i : jsint) (t : table) : table :=
  (λ c, if decide (has_id i c) then Client (id c) (status c) p else c) <$> t.

(** [SELECT * FROM clients WHERE id = ? LIMIT 1] *)
Definition db_get_by_id (i : jsint) : DB (option client) :=
  λ t, (find (has_id i) t, t).

(** [SELECT * FROM clients] *)
Definition db_all : DB (list client) := λ t, (t, t).

(** The rows of a lane, [WHERE status = ?] and
    [clients.filter(c => c.status === status)]. *)
Definition lane (s : string) (l : list client) : list client :=
  filter (λ c, status c = s) l.

(** [SELECT * FROM clients WHERE status = ? ORDER BY priority] *)
Definition db_all_status_by_priority (s : string) : DB (list client) :=
  λ t, (order_by by_priority (lane s t), t).

(** [SELECT * FROM clients ORDER BY status, priority] *)
Definition db_all_by_status_priority : DB (list client) :=
  λ t, (order_by by_status_priority t, t).

Definition db_run_set_status (s : string) (i : jsint) : DB () :=
  λ t, ((), set_status s i t).

Definition db_run_set_priority (p : Z) (i : jsint) : DB () :=
  λ t, ((), set_priority p i t).

(** ** The handler *)

(** [validateId]: [None] is [{ valid: true }], [Some m] is
    [{ valid: false, messageObj: m }]. *)
Definition validateId (i : jsint) : DB (option body) :=
  match i with
  | NaN =>
      mret (Some (MessageObj "Invalid id provided."
                             (Some "Id can only be an integer.")))
  | Int _ =>
      client ← db_get_by_id i;
      match client with
      | None =>
          mret (Some (MessageObj "Invalid id provided."
                                 (Some "Cannot find client with that id.")))
      | Some _ => mret None
      end
  end.

(** [for (let i = k; i < l.length; i++)
       await db.run('UPDATE clients SET priority = ? WHERE id = ?', [i + 1, l[i].id])],
    with [l] the rest of the array from index [k] on. *)
Fixpoint rerank_from (k : Z) (l : list client) : DB () :=
  match l with
  | [] => mret ()
  | c :: l' => db_run_set_priority (k + 1) (Int (id c));; rerank_from (k + 1) l'
  end.

(** [l.splice(start, 0, x)]: a negative [start] counts from the end, and
    the position is clamped to the array. *)
Definition splice_in {A} (start : Z) (x : A) (l : list A) : list A :=
  let len := Z.of_nat (length l) in
  let pos := if decide (start < 0) then Z.max (len + start) 0 else Z.min start len in
  take (Z.to_nat pos) l ++ x :: drop (Z.to_nat pos) l.

(** The body of [if (status && client.status !== status)]. *)
Definition change_lane (i : jsint) (client0 : client) (clients : list client)
    (s : string) : DB () :=
  db_run_set_status s i;;
  let oldStatusClients :=
    filter (λ c, status c = status client0 ∧ ¬ has_id i c) clients in
  rerank_from 0 oldStatusClients;;
  let newStatusClients := lane s clients in
  let newPriority := Z.of_nat (length newStatusClients) + 1 in
  db_run_set_priority newPriority i.

(** The body of [if (priority)]; [Some r] is the response of the early
    [return]. *)
Definition reorder (i : jsint) (client0 : client) (currentStatus : string)
    (p : Z) : DB (option response) :=
  swimlaneClients ← db_all_status_by_priority currentStatus;
  let swimlaneClients := filter (λ c, ¬ has_id i c) swimlaneClients in
  let bound := Z.of_nat (length swimlaneClients) + 1 in
  if decide (p < 1 ∨ p > bound) then
    mret (Some (Response 400
      (MessageObj "Invalid priority."
         (Some ("Priority must be between 1 and " +:+ pretty bound +:+ ".")))))
  else
    rerank_from 0 (splice_in (p - 1) client0 swimlaneClients);;
    mret None.

(** [status || client.status] *)
Definition currentStatus (req : request) (client0 : client) : string :=
  match body_status req with
  | Some s => if decide (s ≠ "") then s else status client0
  | None => status client0
  end.

(** [if (status && client.status !== status) { ... }] *)
Definition status_step (req : request) (client0 : client)
    (clients : list client) : DB () :=
  match body_status req with
  | Some s =>
      if decide (s ≠ "" ∧ status client0 ≠ s)
      then change_lane (params_id req) client0 clients s
      else mret ()
  | None => mret ()
  end.

(** [if (priority) { ... }]; a priority of 0 is falsy, as an absent one. *)
Definition priority_step (req : request) (client0 : client) : DB (option response) :=
  match body_priority req with
  | Some p =>
      if decide (p ≠ 0)
      then reorder (params_id req) client0 (currentStatus req client0) p
      else mret None
  | None => mret None
  end.

(** [app.put('/api/v1/clients/:id', async (req, res) => ...)] *)
Definition put_client (req : request) : DB response :=
  let i := params_id req in
  v ← validateId i;
  match v with
  | Some messageObj => mret (Response 400 messageObj)
  | None =>
    clients ← db_all;
    match find (has_id i) clients with
    | None => mret (Response 404 (MessageObj "Client not found." None))
    | Some client0 =>
      status_step req client0 clients;;
      early ← priority_step req client0;
      match early with
      | Some r => mret r
      | None =>
          updatedClients ← db_all_by_status_priority;
          mret (Response 200 (Clients updatedClients))
      end
    end
  end.

(** ** The listing *)

(** [SELECT * FROM clients WHERE status = ?] *)
Definition db_all_status (s : string) : DB (list client) :=
  λ t, (lane s t, t).

(** [app.get('/api/v1/clients', async (req, res) => ...)], given
    [req.query.status]; [None] is a query without that parameter.  The
    [catch] branch (500) is taken when a statement throws, which the
    statements of this model never do. *)
Definition get_clients (query_status : option string) : DB response :=
  match query_status with
  | Some s =>
      if decide (s ≠ "") then
        if decide (s ≠ "backlog" ∧ s ≠ "in-progress" ∧ s ≠ "complete") then
          mret (Response 400
            (MessageObj "Invalid status provided."
               (Some "Status can only be one of the following: [backlog | in-progress | complete].")))
        else
          clients ← db_all_status s;
          mret (Response 200 (Clients clients))
      else
        clients ← db_all;
        mret (Response 200 (Clients clients))
  | None =>
      clients ← db_all;
      mret (Response 200 (Clients clients))
  end.

(** The three lanes the listing accepts. *)
Definition recognized (s : string) : Prop :=
  s = "backlog" ∨ s = "in-progress" ∨ s = "complete".

(** ** The table after a re-ranking loop *)

(** Position of the first occurrence of [z]. *)
Fixpoint index_of (z : Z) (ids : list Z) : option nat :=
  match ids with
  | [] => None
  | y :: ids' => if decide (y = z) then Some 0%nat else S <$> index_of z ids'
  end.

(** All the updates of one loop at once: the row whose id stands at
    position [n] of [ids] gets priority [k + n + 1]. *)
Definition reranked (k : Z) (ids : list Z) (t : table) : table :=
  (λ c, match index_of (id c) ids with
        | Some n => Client (id c) (status c) (k + Z.of_nat n + 1)
        | None => c
        end) <$> t.

(** ** Definitions used to state what the handler does *)

(** [swimlaneClients] after the [filter]: the lane read back in priority
    order, without the target. *)
Definition swimlane (i : jsint) (s : string) (t : table) : list client :=
  filter (λ c, ¬ has_id i c) (order_by by_priority (lane s t)).

Definition invalid_priority (bound : Z) : response :=
  Response 400
    (MessageObj "Invalid priority."
       (Some ("Priority must be between 1 and " +:+ pretty bound +:+ "."))).

(** The table after a lane change, for the table [ta ++ c0 :: tb]. *)
Definition lane_changed (ta tb : list client) (c0 : client) (s : string) : table :=
  let ranks := id <$> lane (status c0) (ta ++ tb) in
  reranked 0 ranks ta
  ++ Client (id c0) s (Z.of_nat (length (lane s (ta ++ tb))) + 1)
  :: reranked 0 ranks tb.

(** The priorities of a lane are exactly 1, ..., N for its N rows. *)
Definition lane_ok (s : string) (t : table) : Prop :=
  priority <$> lane s t ≡ₚ seqZ 1 (Z.of_nat (length (lane s t))).

Global Instance lane_ok_dec s t : Decision (lane_ok s t).
Proof. unfold lane_ok. apply _. Defined.

(** Where a row of rank [q] ends up when the row of rank [r] of the same
    lane is taken out and put back at rank [p]. *)
Definition shifted (r p q : Z) : Z :=
  if decide (q = r) then p
  else
    let q' := if decide (q < r) then q else q - 1 in
    if decide (q' < p) then q' else q' + 1.

(** What every statement of the handler keeps of a row: its id, and its
    status unless it is the row the request names. *)
Definition keeps_rows (i : jsint) (f : client → client) : Prop :=
  ∀ c, id (f c) = id c ∧ (¬ has_id i c → status (f c) = status c).

Global Instance recognized_dec s : Decision (recognized s).
Proof. unfold recognized. apply _. Defined.

(** ** Tables used as examples *)

Definition board : table :=
  [ Client 1 "backlog" 2; Client 2 "backlog" 1; Client 3 "backlog" 3;
    Client 4 "in-progress" 1; Client 5 "complete" 1; Client 6 "complete" 2 ].

Definition board0 : table :=
  [ Client 1 "backlog" 1; Client 2 "backlog" 2; Client 3 "backlog" 3;
    Client 4 "in-progress" 1; Client 5 "complete" 1; Client 6 "complete" 2 ].

Definition lane5 : table :=
  [ Client 11 "backlog" 3; Client 12 "backlog" 5; Client 13 "backlog" 1;
    Client 14 "complete" 1; Client 15 "backlog" 4; Client 16 "backlog" 2 ].

(** ** The sort *)

Lemma insert_sorted_Permutation {A} (R : relation A) `{!RelDecision R} x l :
  insert_sorted R x l ≡ₚ x :: l.
Proof.
  induction l as [|y l IH]; [done|]. cbn [insert_sorted].
  case_decide; [done|]. by rewrite IH, Permutation_swap.
Qed.

Lemma order_by_Permutation {A} (R : relation A) `{!RelDecision R} l :
  order_by R l ≡ₚ l.
Proof.
  induction l as [|x l IH]; [done|]. cbn [order_by].
  by rewrite insert_sorted_Permutation, IH.
Qed.

Lemma Sorted_insert_sorted {A} (R : relation A) `{!RelDecision R, !Total R} x l :
  Sorted R l → Sorted R (insert_sorted R x l).
Proof.
  induction 1 as [|y l Hl IH Hy]; cbn [insert_sorted].
  - by repeat constructor.
  - case_decide as Hxy.
    + by repeat constructor.
    + assert (R y x) as Hyx by (by destruct (total R x y)).
      constructor; [done|].
      destruct Hy as [|z l Hyz]; cbn [insert_sorted].
      * by constructor.
      * case_decide; by constructor.
Qed.

Lemma Sorted_order_by {A} (R : relation A) `{!RelDecision R, !Total R} l :
  Sorted R (order_by R l).
Proof.
  induction l as [|x l IH]; [constructor|]. cbn [order_by].
  by apply Sorted_insert_sorted.
Qed.

(** Stability: rows that are in order already, equal keys included, are
    left in the order they are stored in. *)
Lemma order_by_sorted {A} (R : relation A) `{!RelDecision R} l :
  Sorted R l → order_by R l = l.
Proof.
  induction 1 as [|x l Hl IH Hx]; [done|]. cbn [order_by]. rewrite IH.
  destruct Hx as [|y l Hxy]; [done|]. cbn [insert_sorted].
  by rewrite decide_True.
Qed.

(** ** Positions in a re-ranking loop *)

Lemma index_of_None z ids : index_of z ids = None ↔ z ∉ ids.
Proof.
  induction ids as [|y ids IH]; simpl.
  - split; [intros _; apply not_elem_of_nil | done].
  - rewrite not_elem_of_cons. case_decide as Hy.
    + split; [done | intros [? _]; congruence].
    + rewrite fmap_None, IH. split; [done | by intros [_ ?]].
Qed.

Lemma index_of_lookup z ids n :
  NoDup ids → ids !! n = Some z → index_of z ids = Some n.
Proof.
  intros Hnd. revert n. induction Hnd as [|y ids Hy Hnd IH]; intros n Hn.
  - by rewrite lookup_nil in Hn.
  - destruct n as [|n]; simpl in *.
    + simplify_eq. by rewrite decide_True.
    + rewrite decide_False.
      * by rewrite (IH n Hn).
      * intros ->. apply Hy. by eapply list_elem_of_lookup_2.
Qed.


Lemma rerank_from_table k l t :
  NoDup (id <$> l) → (rerank_from k l t).2 = reranked k (id <$> l) t.
Proof.
  revert k t. induction l as [|c l IH]; intros k t Hnd.
  - unfold reranked. simpl. by rewrite list_fmap_id.
  - rewrite fmap_cons in Hnd. apply NoDup_cons in Hnd as [Hc Hnd].
    change ((rerank_from k (c :: l) t).2)
      with ((rerank_from (k + 1) l (set_priority (k + 1) (Int (id c)) t)).2).
    rewrite IH by done. unfold reranked, set_priority.
    rewrite <-list_fmap_compose. apply list_fmap_ext. intros _ x _.
    rewrite fmap_cons. cbn [compose index_of].
    unfold has_id. destruct (decide (Int (id c) = Int (id x))) as [E|E].
    + injection E as E. rewrite decide_True by done. cbn [id status].
      rewrite <-E. apply index_of_None in Hc. rewrite Hc.
      f_equal; lia.
    + rewrite decide_False by congruence.
      destruct (index_of (id x) (id <$> l)) as [n|]; cbn; [|done].
      f_equal; lia.
Qed.

(** ** The handler, step by step *)

Lemma find_Some {A} (P : A → Prop) `{!∀ x, Decision (P x)} (l : list A) x :
  find P l = Some x → x ∈ l ∧ P x.
Proof.
  unfold find. intros ([n y] & Hf & ->)%fmap_Some.
  apply list_find_Some in Hf as (Hn & HP & _).
  split; [by eapply list_elem_of_lookup_2 | done].
Qed.

Lemma find_None {A} (P : A → Prop) `{!∀ x, Decision (P x)} (l : list A) :
  find P l = None ↔ ∀ x, x ∈ l → ¬ P x.
Proof.
  unfold find. rewrite fmap_None, list_find_None, Forall_forall. done.
Qed.

Lemma find_has_id i t c : find (has_id i) t = Some c → c ∈ t ∧ i = Int (id c).
Proof. intros Hf. by apply (find_Some (has_id i)) in Hf. Qed.

(** The rows of a table with unique ids are told apart by their id. *)
Lemma unique_id (t : table) c1 c2 :
  NoDup (id <$> t) → c1 ∈ t → c2 ∈ t → id c1 = id c2 → c1 = c2.
Proof.
  intros Hnd (n1 & H1)%list_elem_of_lookup_1 (n2 & H2)%list_elem_of_lookup_1 E.
  assert (n1 = n2) as ->; [|congruence].
  eapply NoDup_lookup; [done| |]; rewrite list_lookup_fmap.
  - by rewrite H1.
  - rewrite H2. simpl. by rewrite E.
Qed.

Lemma put_client_NaN st p t :
  put_client (Request NaN st p) t =
    (Response 400 (MessageObj "Invalid id provided."
                              (Some "Id can only be an integer.")), t).
Proof. done. Qed.

Lemma put_client_unknown req t :
  find (has_id (params_id req)) t = None →
  params_id req ≠ NaN →
  put_client req t =
    (Response 400 (MessageObj "Invalid id provided."
                              (Some "Cannot find client with that id.")), t).
Proof.
  intros Hf Hi. unfold put_client, validateId, mbind, DB_bind, db_get_by_id.
  destruct (params_id req); [done|]. by rewrite Hf.
Qed.

(** What the handler does once the target is found: the status step, the
    priority step on the table the status step left, and the final
    [SELECT] unless the priority step has answered already. *)
Lemma put_client_found req t c0 :
  find (has_id (params_id req)) t = Some c0 →
  put_client req t =
    match priority_step req c0 (status_step req c0 t t).2 with
    | (Some r, t2) => (r, t2)
    | (None, t2) => (Response 200 (Clients (order_by by_status_priority t2)), t2)
    end.
Proof.
  intros Hf. pose proof (find_has_id _ _ _ Hf) as [_ Hi].
  unfold put_client, validateId, mbind, DB_bind, db_get_by_id, db_all.
  rewrite Hi in *. rewrite Hf. cbn -[status_step priority_step find].
  rewrite Hf. destruct (status_step req c0 t t) as [[] t1]. cbn -[priority_step].
  by destruct (priority_step req c0 t1) as [[r|] t2].
Qed.

Lemma rerank_from_fst k l t : (rerank_from k l t).1 = ().
Proof. by destruct (rerank_from k l t) as [[] ?]. Qed.

Lemma reorder_invalid i c0 s p t :
  p < 1 ∨ p > Z.of_nat (length (swimlane i s t)) + 1 →
  reorder i c0 s p t =
    (Some (invalid_priority (Z.of_nat (length (swimlane i s t)) + 1)), t).
Proof.
  intros Hp. unfold reorder, mbind, DB_bind, db_all_status_by_priority.
  fold (swimlane i s t). by rewrite decide_True.
Qed.

Lemma reorder_valid i c0 s p t :
  1 ≤ p ≤ Z.of_nat (length (swimlane i s t)) + 1 →
  reorder i c0 s p t =
    (None, (rerank_from 0 (splice_in (p - 1) c0 (swimlane i s t)) t).2).
Proof.
  intros Hp. unfold reorder, mbind, DB_bind, db_all_status_by_priority.
  fold (swimlane i s t). rewrite decide_False by lia.
  by destruct (rerank_from _ _ t) as [[] ?].
Qed.

(** The 404 branch is dead code: [validateId] has already looked the id
    up in the same table. *)
Lemma put_client_never_404 req t : code (put_client req t).1 ≠ 404.
Proof.
  destruct (find (has_id (params_id req)) t) as [c0|] eqn:Hf.
  - rewrite (put_client_found _ _ _ Hf).
    destruct (priority_step req c0 _) as [[r|] t2] eqn:Hp; [|done]. simpl.
    unfold priority_step in Hp.
    destruct (body_priority req) as [p|]; [|done].
    case_decide; [|done].
    destruct (decide (1 ≤ p ≤ Z.of_nat (length (swimlane (params_id req)
      (currentStatus req c0) (status_step req c0 t t).2)) + 1)) as [Hv|Hv].
    + by rewrite reorder_valid in Hp.
    + rewrite reorder_invalid in Hp by lia. by simplify_eq.
  - destruct (params_id req) eqn:Hi.
    + by destruct req; simpl in *; subst.
    + rewrite put_client_unknown; [done|by rewrite Hi|by rewrite Hi].
Qed.

(** ** The two orders *)

Global Instance by_priority_total : Total by_priority.
Proof. intros a b. unfold by_priority. lia. Qed.

Global Instance by_priority_trans : Transitive by_priority.
Proof. intros a b c. unfold by_priority. lia. Qed.

Global Instance by_status_priority_total : Total by_status_priority.
Proof.
  intros a b. unfold by_status_priority.
  destruct (decide (status a = status b)) as [E|E].
  - rewrite decide_True by done. lia.
  - rewrite decide_False by done. apply (total String.le).
Qed.

(** ** When a step does nothing *)

Lemma status_step_skip req c0 clients t :
  body_status req = None ∨ body_status req = Some "" ∨
    body_status req = Some (status c0) →
  status_step req c0 clients t = ((), t).
Proof.
  unfold status_step. intros [-> | [-> | ->]]; [done| |].
  - rewrite decide_False; [done | by intros [? _]].
  - rewrite decide_False; [done | by intros [_ ?]].
Qed.

Lemma status_step_change req c0 clients s :
  body_status req = Some s → s ≠ "" → status c0 ≠ s →
  status_step req c0 clients = change_lane (params_id req) c0 clients s.
Proof. unfold status_step. intros -> ??. by rewrite decide_True. Qed.

Lemma priority_step_skip req c0 t :
  body_priority req = None ∨ body_priority req = Some 0 →
  priority_step req c0 t = (None, t).
Proof. unfold priority_step. by intros [-> | ->]. Qed.

Lemma priority_step_reorder req c0 p :
  body_priority req = Some p → p ≠ 0 →
  priority_step req c0 =
    reorder (params_id req) c0 (currentStatus req c0) p.
Proof. unfold priority_step. intros -> ?. by rewrite decide_True. Qed.

(** ** Lanes under row-wise updates *)

Lemma filter_ext_elem {A} (P Q : A → Prop)
    `{!∀ x, Decision (P x), !∀ x, Decision (Q x)} (l : list A) :
  (∀ x, x ∈ l → P x ↔ Q x) → filter P l = filter Q l.
Proof.
  induction l as [|a l IH]; intros HPQ; [done|].
  rewrite !filter_cons, IH.
  - apply decide_ext, HPQ. by left.
  - intros x Hx. apply HPQ. by right.
Qed.

Lemma filter_all {A} (P : A → Prop) `{!∀ x, Decision (P x)} (l : list A) :
  (∀ x, x ∈ l → P x) → filter P l = l.
Proof.
  induction l as [|a l IH]; intros HP; [done|].
  rewrite filter_cons_True by (apply HP; by left).
  f_equal. apply IH. intros x Hx. apply HP. by right.
Qed.

Lemma lane_app s l1 l2 : lane s (l1 ++ l2) = lane s l1 ++ lane s l2.
Proof. apply filter_app. Qed.

Lemma lane_cons s c l :
  lane s (c :: l) = if decide (status c = s) then c :: lane s l else lane s l.
Proof. unfold lane. by rewrite filter_cons. Qed.

Lemma elem_of_lane s l c : c ∈ lane s l ↔ status c = s ∧ c ∈ l.
Proof. unfold lane. by rewrite list_elem_of_filter. Qed.

Lemma lane_fmap s (f : client → client) l :
  (∀ c, c ∈ l → status (f c) = status c) →
  lane s (f <$> l) = f <$> lane s l.
Proof.
  induction l as [|a l IH]; intros Hf; [done|].
  unfold lane in *. rewrite fmap_cons, !filter_cons, IH.
  - rewrite Hf by (by left). by case_decide.
  - intros c Hc. apply Hf. by right.
Qed.

Lemma NoDup_ids_filter (P : client → Prop) `{!∀ x, Decision (P x)} l :
  NoDup (id <$> l) → NoDup (id <$> filter P l).
Proof.
  intros Hnd. eapply sublist_NoDup; [done|].
  apply fmap_sublist, sublist_filter.
Qed.

Lemma ids_reranked k ids t : id <$> reranked k ids t = id <$> t.
Proof.
  unfold reranked. rewrite <-list_fmap_compose. apply list_fmap_ext.
  intros _ c _. simpl. by destruct (index_of (id c) ids).
Qed.

Lemma ids_set_status s i t : id <$> set_status s i t = id <$> t.
Proof.
  unfold set_status. rewrite <-list_fmap_compose. apply list_fmap_ext.
  intros _ c _. simpl. by case_decide.
Qed.

Lemma ids_set_priority p i t : id <$> set_priority p i t = id <$> t.
Proof.
  unfold set_priority. rewrite <-list_fmap_compose. apply list_fmap_ext.
  intros _ c _. simpl. by case_decide.
Qed.

Lemma reranked_app k ids l1 l2 :
  reranked k ids (l1 ++ l2) = reranked k ids l1 ++ reranked k ids l2.
Proof. apply fmap_app. Qed.

Lemma reranked_cons_absent k ids c l :
  index_of (id c) ids = None → reranked k ids (c :: l) = c :: reranked k ids l.
Proof. intros Hc. unfold reranked. rewrite fmap_cons. by rewrite Hc. Qed.

Lemma reranked_absent k ids l :
  (∀ c, c ∈ l → id c ∉ ids) → reranked k ids l = l.
Proof.
  intros Hl. unfold reranked. rewrite <-(list_fmap_id l) at 2.
  apply list_fmap_ext. intros n c Hc. simpl.
  apply list_elem_of_lookup_2, Hl, index_of_None in Hc. by rewrite Hc.
Qed.

Lemma set_status_absent s z l :
  (∀ c, c ∈ l → id c ≠ z) → set_status s (Int z) l = l.
Proof.
  intros Hl. unfold set_status. rewrite <-(list_fmap_id l) at 2.
  apply list_fmap_ext. intros n c Hc. simpl.
  apply list_elem_of_lookup_2, Hl in Hc.
  rewrite decide_False; [done | unfold has_id; congruence].
Qed.

Lemma set_priority_absent p z l :
  (∀ c, c ∈ l → id c ≠ z) → set_priority p (Int z) l = l.
Proof.
  intros Hl. unfold set_priority. rewrite <-(list_fmap_id l) at 2.
  apply list_fmap_ext. intros n c Hc. simpl.
  apply list_elem_of_lookup_2, Hl in Hc.
  rewrite decide_False; [done | unfold has_id; congruence].
Qed.

Lemma lane_reranked s k ids t :
  lane s (reranked k ids t) = reranked k ids (lane s t).
Proof.
  apply lane_fmap. intros c _. by destruct (index_of (id c) ids).
Qed.

Lemma elem_of_reranked_id k ids l c :
  c ∈ reranked k ids l → ∃ c', c' ∈ l ∧ id c = id c'.
Proof.
  intros (c' & -> & Hc')%list_elem_of_fmap. exists c'. split; [done|].
  by destruct (index_of (id c') ids).
Qed.

(** Positions, shifted by [k] and counted from 1, of the ids of a list
    without duplicates. *)
Lemma rank_seq k ids :
  NoDup ids →
  (λ x, k + from_option Z.of_nat 0 (index_of x ids) + 1) <$> ids
    = seqZ (k + 1) (Z.of_nat (length ids)).
Proof.
  intros Hnd. apply list_eq. intros n. rewrite list_lookup_fmap.
  destruct (ids !! n) as [x|] eqn:Hn; simpl.
  - rewrite (index_of_lookup _ _ _ Hnd Hn). simpl.
    apply lookup_lt_Some in Hn as Hlt.
    rewrite lookup_seqZ_lt by lia. f_equal. lia.
  - apply lookup_ge_None in Hn. by rewrite lookup_seqZ_ge by lia.
Qed.

Lemma priorities_reranked_perm k ids l :
  NoDup ids → id <$> l ≡ₚ ids →
  priority <$> reranked k ids l ≡ₚ seqZ (k + 1) (Z.of_nat (length l)).
Proof.
  intros Hnd Hp.
  assert (priority <$> reranked k ids l =
    (λ x, k + from_option Z.of_nat 0 (index_of x ids) + 1) <$> (id <$> l)) as ->.
  { unfold reranked. rewrite <-!list_fmap_compose. apply list_fmap_ext.
    intros n c Hc. simpl.
    destruct (index_of (id c) ids) as [m|] eqn:Hm; [done|].
    apply index_of_None in Hm. destruct Hm. rewrite <-Hp.
    apply list_elem_of_fmap_2. by eapply list_elem_of_lookup_2. }
  rewrite Hp, rank_seq by done.
  by rewrite <-(Permutation_length Hp), length_fmap.
Qed.

Lemma priorities_reranked k l :
  NoDup (id <$> l) →
  priority <$> reranked k (id <$> l) l = seqZ (k + 1) (Z.of_nat (length l)).
Proof.
  intros Hnd. rewrite <-(length_fmap id l), <-rank_seq by done.
  unfold reranked. rewrite <-!list_fmap_compose. apply list_fmap_ext.
  intros n c Hc. simpl.
  rewrite (index_of_lookup (id c) (id <$> l) n); [done..|].
  by rewrite list_lookup_fmap, Hc.
Qed.

(** ** The lane change on a table with unique ids *)

Lemma rerank_from_eq k l t :
  NoDup (id <$> l) → rerank_from k l t = ((), reranked k (id <$> l) t).
Proof.
  intros Hnd. rewrite <-rerank_from_table by done.
  by destruct (rerank_from k l t) as [[] ?].
Qed.

(** With unique ids the table is the target between two lists of rows
    with other ids. *)
Lemma split_at_target t i c0 :
  NoDup (id <$> t) → find (has_id i) t = Some c0 →
  ∃ ta tb, t = ta ++ c0 :: tb ∧ i = Int (id c0) ∧
    (∀ c, c ∈ ta ++ tb → id c ≠ id c0) ∧ NoDup (id <$> (ta ++ tb)).
Proof.
  intros Hnd [Hin Hi]%find_has_id.
  apply list_elem_of_split in Hin as (ta & tb & ->).
  exists ta, tb. split_and!; [done..| |].
  - rewrite fmap_app, fmap_cons in Hnd.
    apply NoDup_app in Hnd as (_ & Hab & [Hb _]%NoDup_cons).
    intros c [Hc|Hc]%elem_of_app E.
    + apply (Hab (id c)); [by apply list_elem_of_fmap_2 | rewrite E; by left].
    + apply Hb. rewrite <-E. by apply list_elem_of_fmap_2.
  - eapply sublist_NoDup; [done|]. apply fmap_sublist.
    apply sublist_app; [done | by apply sublist_cons].
Qed.

Section lane_change.
Context (ta tb : list client) (c0 : client) (s : string).
Hypothesis other_ids : ∀ c, c ∈ ta ++ tb → id c ≠ id c0.
Hypothesis unique : NoDup (id <$> (ta ++ tb)).

Let z := id c0.
Let t := ta ++ c0 :: tb.

Lemma set_status_target :
  set_status s (Int z) t = ta ++ Client z s (priority c0) :: tb.
Proof.
  unfold set_status, t. rewrite fmap_app, fmap_cons.
  rewrite decide_True by done. f_equal; [|f_equal].
  - apply set_status_absent. intros c Hc. apply other_ids, elem_of_app. by left.
  - apply set_status_absent. intros c Hc. apply other_ids, elem_of_app. by right.
Qed.

Lemma set_priority_target p l1 l2 c :
  id <$> l1 = id <$> ta → id <$> l2 = id <$> tb → id c = z →
  set_priority p (Int z) (l1 ++ c :: l2) = l1 ++ Client z (status c) p :: l2.
Proof.
  intros H1 H2 Hc. unfold set_priority. rewrite fmap_app, fmap_cons.
  rewrite decide_True by (unfold has_id; by rewrite Hc). rewrite Hc.
  f_equal; [|f_equal]; apply set_priority_absent; intros x Hx;
    apply (list_elem_of_fmap_2 id) in Hx; rewrite ?H1, ?H2 in Hx;
    apply list_elem_of_fmap in Hx as (y & -> & Hy);
    apply other_ids, elem_of_app; auto.
Qed.

Lemma target_not_ranked (P : client → Prop) `{!∀ x, Decision (P x)} l :
  (∀ c, c ∈ l → c ∈ ta ++ tb) → index_of z (id <$> filter P l) = None.
Proof.
  intros Hl. apply index_of_None.
  intros (c & Hz & [_ Hc]%list_elem_of_filter)%list_elem_of_fmap.
  by apply (other_ids c); [apply Hl|].
Qed.

(** The old lane as the handler computes it from the stale snapshot. *)
Lemma oldStatusClients_eq :
  filter (λ c, status c = status c0 ∧ ¬ has_id (Int z) c) t
    = lane (status c0) (ta ++ tb).
Proof.
  unfold t, lane. rewrite !filter_app, filter_cons_False.
  - f_equal; apply filter_ext_elem; intros c Hc;
      (split; [by intros [? _] | intros ?; split; [done|]]);
      unfold has_id; intros [= E]; (eapply other_ids; [|done]);
      apply elem_of_app; auto.
  - intros [_ []]. done.
Qed.

Lemma lane_without_target s' : status c0 ≠ s' → lane s' t = lane s' (ta ++ tb).
Proof.
  intros Hs. unfold t, lane. rewrite !filter_app.
  by rewrite filter_cons_False.
Qed.

Lemma lane_with_target :
  lane (status c0) t = lane (status c0) ta ++ c0 :: lane (status c0) tb.
Proof. unfold t, lane. by rewrite filter_app, filter_cons_True. Qed.

(** The table the lane change leaves: the target re-labelled and ranked
    last in its new lane, the rest of its old lane re-ranked in storage
    order. *)
Lemma change_lane_split :
  status c0 ≠ s →
  change_lane (Int z) c0 t s t =
    ((), let ranks := id <$> lane (status c0) (ta ++ tb) in
         reranked 0 ranks ta
         ++ Client z s (Z.of_nat (length (lane s (ta ++ tb))) + 1)
         :: reranked 0 ranks tb).
Proof.
  intros Hs. unfold change_lane, mbind, DB_bind, db_run_set_status,
    db_run_set_priority.
  rewrite oldStatusClients_eq, set_status_target.
  rewrite rerank_from_eq by by apply NoDup_ids_filter.
  rewrite lane_without_target by done. cbn zeta.
  rewrite reranked_app, reranked_cons_absent
    by (by apply (target_not_ranked (λ c, status c = status c0))).
  rewrite (set_priority_target _ _ _ (Client z s (priority c0)));
    [done|apply ids_reranked..|done].
Qed.
End lane_change.

(** A row outside a lane is not among the ids of that lane. *)
Lemma other_lane_not_ranked (l : list client) s0 c :
  NoDup (id <$> l) → c ∈ l → status c ≠ s0 → id c ∉ id <$> lane s0 l.
Proof.
  intros Hnd Hc Hs (c' & E & [Hs' Hc']%elem_of_lane)%list_elem_of_fmap.
  apply Hs. by rewrite (unique_id l c c').
Qed.

Lemma lane_reranked_other (l l' : list client) s0 s' k :
  NoDup (id <$> l) → (∀ c, c ∈ l' → c ∈ l) → s' ≠ s0 →
  lane s' (reranked k (id <$> lane s0 l) l') = lane s' l'.
Proof.
  intros Hnd Hl Hs. rewrite lane_reranked. apply reranked_absent.
  intros c [Hc Hin]%elem_of_lane.
  apply other_lane_not_ranked; [done|by apply Hl|congruence].
Qed.

Lemma find_middle (l1 l2 : list client) c :
  (∀ x, x ∈ l1 → id x ≠ id c) →
  find (has_id (Int (id c))) (l1 ++ c :: l2) = Some c.
Proof.
  intros Hl. unfold find.
  rewrite (proj2 (list_find_Some _ _ (length l1) c)); [done|].
  split_and!.
  - by apply list_lookup_middle.
  - done.
  - intros j y Hj Hlt [= E]. rewrite lookup_app_l in Hj by done.
    apply (Hl y); [by eapply list_elem_of_lookup_2 | done].
Qed.

Section after_lane_change.
Context (ta tb : list client) (c0 : client) (s : string).
Hypothesis other_ids : ∀ c, c ∈ ta ++ tb → id c ≠ id c0.
Hypothesis unique : NoDup (id <$> (ta ++ tb)).
Hypothesis moves : status c0 ≠ s.

Let moved := Client (id c0) s (Z.of_nat (length (lane s (ta ++ tb))) + 1).

Lemma ids_lane_changed :
  id <$> lane_changed ta tb c0 s = id <$> (ta ++ c0 :: tb).
Proof.
  unfold lane_changed. cbn zeta.
  by rewrite !fmap_app, !fmap_cons, !ids_reranked.
Qed.

Lemma find_lane_changed :
  find (has_id (Int (id c0))) (lane_changed ta tb c0 s) = Some moved.
Proof.
  apply (find_middle _ _ moved).
  intros x (c & Hc & ->)%elem_of_reranked_id.
  apply other_ids, elem_of_app. by left.
Qed.

(** The old lane: the rows that stay, in storage order, ranked 1, 2, ... *)
Lemma old_lane_changed :
  lane (status c0) (lane_changed ta tb c0 s)
    = reranked 0 (id <$> lane (status c0) (ta ++ tb)) (lane (status c0) (ta ++ tb)).
Proof.
  unfold lane_changed. cbn zeta. rewrite lane_app, lane_cons. cbn [status].
  rewrite decide_False by congruence.
  by rewrite !lane_reranked, <-reranked_app, <-lane_app.
Qed.

Lemma old_lane_priorities :
  priority <$> lane (status c0) (lane_changed ta tb c0 s)
    = seqZ 1 (Z.of_nat (length (lane (status c0) (ta ++ tb)))).
Proof.
  rewrite old_lane_changed. apply (priorities_reranked 0).
  by apply NoDup_ids_filter.
Qed.

(** Every other lane keeps its rows; the new lane gains the target. *)
Lemma other_lane_changed s' :
  s' ≠ status c0 →
  lane s' (lane_changed ta tb c0 s)
    = lane s' ta ++ (if decide (s = s') then [moved] else []) ++ lane s' tb.
Proof.
  intros Hs. unfold lane_changed. cbn zeta. rewrite lane_app.
  rewrite (lane_reranked_other (ta ++ tb) ta)
    by (done || intros ??; apply elem_of_app; auto).
  f_equal. rewrite lane_cons. cbn [status].
  rewrite (lane_reranked_other (ta ++ tb) tb)
    by (done || intros ??; apply elem_of_app; auto).
  by case_decide.
Qed.
End after_lane_change.

(** ** The in-lane reorder on a table with unique ids *)


Lemma splice_in_perm {A} n (x : A) l : splice_in n x l ≡ₚ x :: l.
Proof.
  unfold splice_in. by rewrite <-Permutation_middle, take_drop.
Qed.

Lemma splice_in_valid {A} n (x : A) l :
  0 ≤ n ≤ Z.of_nat (length l) →
  splice_in n x l = take (Z.to_nat n) l ++ x :: drop (Z.to_nat n) l.
Proof.
  intros Hn. unfold splice_in. rewrite decide_False by lia.
  by rewrite Z.min_l by lia.
Qed.

(** Taking the only row with a given id out of a list. *)
Lemma filter_out_target (l1 l2 : list client) c :
  (∀ x, x ∈ l1 ++ l2 → id x ≠ id c) →
  filter (λ x, ¬ has_id (Int (id c)) x) (l1 ++ c :: l2) = l1 ++ l2.
Proof.
  intros Hl. rewrite filter_app, filter_cons_False by (by intros []).
  f_equal; apply filter_all; intros x Hx [= E];
    (eapply Hl; [|done]); apply elem_of_app; auto.
Qed.

Lemma split_unique (l : list client) c :
  NoDup (id <$> l) → c ∈ l →
  ∃ l1 l2, l = l1 ++ c :: l2 ∧ ∀ x, x ∈ l1 ++ l2 → id x ≠ id c.
Proof.
  intros Hnd (l1 & l2 & ->)%list_elem_of_split. exists l1, l2. split; [done|].
  rewrite fmap_app, fmap_cons in Hnd.
  apply NoDup_app in Hnd as (_ & Hab & [Hb _]%NoDup_cons).
  intros x [Hx|Hx]%elem_of_app E.
  - apply (Hab (id x)); [by apply list_elem_of_fmap_2 | rewrite E; by left].
  - apply Hb. rewrite <-E. by apply list_elem_of_fmap_2.
Qed.

Lemma lane_perm_target (l : list client) c :
  NoDup (id <$> l) → c ∈ l →
  l ≡ₚ c :: filter (λ x, ¬ has_id (Int (id c)) x) l.
Proof.
  intros Hnd Hc.
  destruct (split_unique l c Hnd Hc) as (l1 & l2 & -> & Hl).
  by rewrite filter_out_target, Permutation_middle.
Qed.

Section reorder.
Context (t1 : table) (c0 c1 : client) (s : string) (p : Z).
Hypothesis unique : NoDup (id <$> t1).
Hypothesis target : c1 ∈ lane s t1.
Hypothesis stale : id c0 = id c1.

Let i := Int (id c1).
Let ranks := id <$> splice_in (p - 1) c0 (swimlane i s t1).

Lemma ranks_perm : id <$> lane s t1 ≡ₚ ranks.
Proof.
  unfold ranks. rewrite splice_in_perm, fmap_cons, stale. unfold swimlane.
  rewrite order_by_Permutation.
  rewrite (lane_perm_target (lane s t1) c1) at 1;
    [done | by apply NoDup_ids_filter | done].
Qed.

Lemma ranks_NoDup : NoDup ranks.
Proof. rewrite <-ranks_perm. by apply NoDup_ids_filter. Qed.

Lemma reorder_table :
  1 ≤ p ≤ Z.of_nat (length (swimlane i s t1)) + 1 →
  reorder i c0 s p t1 = (None, reranked 0 ranks t1).
Proof.
  intros Hp. rewrite reorder_valid by done.
  by rewrite rerank_from_table by apply ranks_NoDup.
Qed.

(** The lane is ranked 1, 2, ..., whatever its ranks were before. *)
Lemma reordered_lane_priorities :
  priority <$> lane s (reranked 0 ranks t1)
    ≡ₚ seqZ 1 (Z.of_nat (length (lane s t1))).
Proof.
  rewrite lane_reranked.
  apply (priorities_reranked_perm 0); [apply ranks_NoDup | apply ranks_perm].
Qed.

Lemma reordered_other_lane s' :
  s' ≠ s → lane s' (reranked 0 ranks t1) = lane s' t1.
Proof.
  intros Hs. rewrite lane_reranked. apply reranked_absent.
  intros c [Hc Hin]%elem_of_lane. rewrite <-ranks_perm.
  apply other_lane_not_ranked; [done..|congruence].
Qed.

Lemma swimlane_length :
  S (length (swimlane i s t1)) = length (lane s t1).
Proof.
  rewrite <-(length_fmap id (lane s t1)), ranks_perm. unfold ranks.
  by rewrite length_fmap, splice_in_perm.
Qed.
End reorder.

(** ** The ranking invariant *)

Lemma length_lane_reranked s k ids t :
  length (lane s (reranked k ids t)) = length (lane s t).
Proof. rewrite lane_reranked. apply length_fmap. Qed.

Lemma lane_changed_ok ta tb c0 s s' :
  (∀ c, c ∈ ta ++ tb → id c ≠ id c0) → NoDup (id <$> (ta ++ tb)) →
  status c0 ≠ s →
  lane_ok s' (ta ++ c0 :: tb) →
  lane_ok s' (lane_changed ta tb c0 s).
Proof.
  intros Hids Hnd Hs Hok. unfold lane_ok.
  destruct (decide (s' = status c0)) as [->|Hs'].
  - rewrite old_lane_priorities, old_lane_changed by done.
    unfold reranked. by rewrite length_fmap.
  - unfold lane_ok in Hok.
    rewrite (lane_without_target ta tb c0 s'), lane_app in Hok by done.
    rewrite other_lane_changed by done.
    destruct (decide (s = s')) as [->|Hss]; [|done].
    cbn [app]. rewrite <-Permutation_middle, <-lane_app in *.
    rewrite fmap_cons, Hok. cbn [priority length].
    rewrite Nat2Z.inj_succ, <-Z.add_1_r, seqZ_app by lia.
    rewrite (seqZ_cons _ 1), (seqZ_nil _ (Z.pred 1)) by lia.
    rewrite <-Permutation_cons_append. f_equiv. lia.
Qed.

Lemma reordered_ok t1 c0 c1 s p :
  NoDup (id <$> t1) → c1 ∈ lane s t1 → id c0 = id c1 →
  (∀ s', lane_ok s' t1) →
  ∀ s', lane_ok s'
    (reranked 0 (id <$> splice_in (p - 1) c0 (swimlane (Int (id c1)) s t1)) t1).
Proof.
  intros Hnd Hc1 Hid Hok s'. unfold lane_ok.
  destruct (decide (s' = s)) as [->|Hs'].
  - rewrite length_lane_reranked. by apply reordered_lane_priorities.
  - rewrite reordered_other_lane by done. apply Hok.
Qed.

(** ** The two steps on a table split at the target *)

Lemma status_step_cases req ta tb c0 :
  (∀ c, c ∈ ta ++ tb → id c ≠ id c0) → NoDup (id <$> (ta ++ tb)) →
  params_id req = Int (id c0) →
  let t := ta ++ c0 :: tb in
  (status_step req c0 t t = ((), t) ∧ currentStatus req c0 = status c0) ∨
  (∃ s, body_status req = Some s ∧ s ≠ "" ∧ status c0 ≠ s ∧
        currentStatus req c0 = s ∧
        status_step req c0 t t = ((), lane_changed ta tb c0 s)).
Proof.
  intros Hids Hnd Hi t. unfold currentStatus.
  destruct (body_status req) as [s|] eqn:Hst.
  - destruct (decide (s = "")) as [->|Hne].
    { left. split; [apply status_step_skip; auto | done]. }
    destruct (decide (status c0 = s)) as [<-|Hs].
    { left. split; [apply status_step_skip; auto | by case_decide]. }
    right. exists s. rewrite decide_True by done. split_and!; [done..|].
    rewrite (status_step_change _ _ _ s), Hi by done.
    by apply change_lane_split.
  - left. split; [apply status_step_skip; auto | done].
Qed.

Lemma priority_step_cases req c0 c1 t1 :
  NoDup (id <$> t1) → c1 ∈ lane (currentStatus req c0) t1 →
  id c0 = id c1 → params_id req = Int (id c1) →
  let lane1 := swimlane (Int (id c1)) (currentStatus req c0) t1 in
  let bound := Z.of_nat (length lane1) + 1 in
  (priority_step req c0 t1 = (None, t1) ∧
     (body_priority req = None ∨ body_priority req = Some 0)) ∨
  (∃ p, body_priority req = Some p ∧ p ≠ 0 ∧
     ((p < 1 ∨ p > bound) ∧
        priority_step req c0 t1 = (Some (invalid_priority bound), t1) ∨
      1 ≤ p ≤ bound ∧
        priority_step req c0 t1 =
          (None, reranked 0 (id <$> splice_in (p - 1) c0 lane1) t1))).
Proof.
  intros Hnd Hc1 Hid Hi lane1 bound.
  destruct (body_priority req) as [p|] eqn:Hp.
  - destruct (decide (p = 0)) as [->|Hp0].
    { left. split; [apply priority_step_skip|]; auto. }
    right. exists p. split_and!; [done..|].
    rewrite (priority_step_reorder _ _ p), Hi by done.
    destruct (decide (1 ≤ p ≤ bound)) as [Hv|Hv].
    + right. split; [done|]. by apply reorder_table.
    + left. split; [lia|]. apply reorder_invalid. subst bound lane1. lia.
  - left. split; [apply priority_step_skip|]; auto.
Qed.

Lemma elem_of_lane_middle (l1 l2 : list client) c :
  c ∈ lane (status c) (l1 ++ c :: l2).
Proof.
  apply elem_of_lane. split; [done|]. apply elem_of_app. right. by left.
Qed.

(** ** Claims *)

(** C2. On a table with unique ids whose lanes are each ranked exactly
    1, ..., N, every request answered with 200 (lane change, in-lane
    reorder, both, or neither) leaves a table whose lanes are each ranked
    exactly 1, ..., N for their new sizes. *)
Theorem ranks_stay_contiguous req t r t' :
  NoDup (id <$> t) →
  (∀ s, lane_ok s t) →
  put_client req t = (r, t') →
  code r = 200 →
  ∀ s, lane_ok s t'.
Proof.
  intros Hnd Hok Hput Hcode.
  destruct (find (has_id (params_id req)) t) as [c0|] eqn:Hf; last first.
  { destruct (params_id req) eqn:Hi.
    - destruct req; simpl in *; subst. by inv Hput.
    - rewrite put_client_unknown in Hput by (by rewrite Hi). by inv Hput. }
  rewrite (put_client_found _ _ _ Hf) in Hput.
  destruct (split_at_target _ _ _ Hnd Hf) as (ta & tb & -> & Hi & Hids & Hnd').
  assert (∃ c1 t1, status_step req c0 (ta ++ c0 :: tb) (ta ++ c0 :: tb) = ((), t1)
    ∧ NoDup (id <$> t1) ∧ c1 ∈ lane (currentStatus req c0) t1
    ∧ id c0 = id c1 ∧ ∀ s, lane_ok s t1) as (c1 & t1 & Hst & Hnd1 & Hc1 & Hid & Hok1).
  { destruct (status_step_cases req ta tb c0 Hids Hnd' Hi)
      as [[Hst Hcs] | (s & Hbs & Hne & Hs & Hcs & Hst)].
    - exists c0, (ta ++ c0 :: tb). rewrite Hcs.
      split_and!; [done..|apply elem_of_lane_middle|done|done].
    - exists (Client (id c0) s (Z.of_nat (length (lane s (ta ++ tb))) + 1)),
        (lane_changed ta tb c0 s).
      split; [done|]. rewrite Hcs, ids_lane_changed.
      split_and!; [done| |done|intros s'; by apply lane_changed_ok].
      apply elem_of_lane. split; [done|]. apply elem_of_app. right. by left. }
  rewrite Hst in Hput. cbn [snd] in Hput. rewrite Hid in Hi.
  destruct (priority_step_cases req c0 c1 t1 Hnd1 Hc1 Hid Hi)
    as [[Hpr _] | (p & _ & _ & [[_ Hpr] | [_ Hpr]])];
    rewrite Hpr in Hput; inv Hput; [done|].
  by apply reordered_ok.
Qed.

Lemma reranked_lookup_absent k ids (l : list client) n c :
  l !! n = Some c → id c ∉ ids → reranked k ids l !! n = Some c.
Proof.
  intros Hn Hc. unfold reranked. rewrite list_lookup_fmap, Hn. simpl.
  apply index_of_None in Hc. by rewrite Hc.
Qed.

Lemma length_reranked k ids l : length (reranked k ids l) = length l.
Proof. apply length_fmap. Qed.

Lemma lane_changed_lookup ta tb c0 s n c :
  NoDup (id <$> (ta ++ tb)) →
  (ta ++ c0 :: tb) !! n = Some c → status c ≠ status c0 →
  lane_changed ta tb c0 s !! n = Some c.
Proof.
  intros Hnd Hn Hs. unfold lane_changed. cbn zeta.
  apply lookup_app_Some in Hn as [Hn | [Hlen Hn]].
  - apply lookup_app_l_Some, reranked_lookup_absent; [done|].
    apply other_lane_not_ranked; [done| |done].
    apply elem_of_app. left. by eapply list_elem_of_lookup_2.
  - apply lookup_app_Some. right. rewrite length_reranked. split; [done|].
    destruct (n - length ta)%nat as [|m]; simpl in *; [by simplify_eq|].
    apply reranked_lookup_absent; [done|].
    apply other_lane_not_ranked; [done| |done].
    apply elem_of_app. right. by eapply list_elem_of_lookup_2.
Qed.

(** C10. On a table with unique ids, whatever the handler answers, the
    ids stay as they are, row by row, and every row whose lane is neither
    the target's lane nor the lane named by the request is left as it is:
    status and priority.  This holds in particular when the answer is
    200. *)
Theorem other_lanes_untouched req t c0 r t' :
  NoDup (id <$> t) →
  find (has_id (params_id req)) t = Some c0 →
  put_client req t = (r, t') →
  id <$> t' = id <$> t ∧
  ∀ n c, t !! n = Some c →
    status c ≠ status c0 → status c ≠ currentStatus req c0 →
    t' !! n = Some c.
Proof.
  intros Hnd Hf Hput.
  rewrite (put_client_found _ _ _ Hf) in Hput.
  destruct (split_at_target _ _ _ Hnd Hf) as (ta & tb & -> & Hi & Hids & Hnd').
  assert (∃ c1 t1, status_step req c0 (ta ++ c0 :: tb) (ta ++ c0 :: tb) = ((), t1)
    ∧ id <$> t1 = id <$> (ta ++ c0 :: tb)
    ∧ c1 ∈ lane (currentStatus req c0) t1 ∧ id c0 = id c1
    ∧ ∀ n c, (ta ++ c0 :: tb) !! n = Some c → status c ≠ status c0 →
        t1 !! n = Some c) as (c1 & t1 & Hst & Hids1 & Hc1 & Hid & Hfr).
  { destruct (status_step_cases req ta tb c0 Hids Hnd' Hi)
      as [[Hst Hcs] | (s & Hbs & Hne & Hs & Hcs & Hst)].
    - exists c0, (ta ++ c0 :: tb). rewrite Hcs.
      split_and!; [done..|apply elem_of_lane_middle|done|done].
    - exists (Client (id c0) s (Z.of_nat (length (lane s (ta ++ tb))) + 1)),
        (lane_changed ta tb c0 s).
      split; [done|]. rewrite Hcs, ids_lane_changed.
      split_and!; [done| |done|].
      + apply elem_of_lane. split; [done|]. apply elem_of_app. right. by left.
      + intros n c Hn Hc. by apply lane_changed_lookup. }
  rewrite Hst in Hput. cbn [snd] in Hput. rewrite Hid in Hi.
  assert (NoDup (id <$> t1)) as Hnd1 by (by rewrite Hids1).
  destruct (priority_step_cases req c0 c1 t1 Hnd1 Hc1 Hid Hi)
    as [[Hpr _] | (p & _ & _ & [[_ Hpr] | [_ Hpr]])];
    rewrite Hpr in Hput; inv Hput; [by auto..|].
  split; [by rewrite ids_reranked|].
  intros n c Hn Hs0 Hs. apply reranked_lookup_absent; [by auto|].
  rewrite <-(ranks_perm t1 c0 c1) by done.
  apply other_lane_not_ranked; [done| |done].
  eapply list_elem_of_lookup_2. by apply Hfr.
Qed.

(** C9. A request that names the target's own status, or none, and no
    priority is answered with 200 and the rows of the snapshot in
    (status, priority) order; the table is left as it was. *)
Theorem noop_returns_snapshot t z c0 st :
  find (has_id (Int z)) t = Some c0 →
  st = None ∨ st = Some (status c0) →
  ∃ rows,
    put_client (Request (Int z) st None) t = (Response 200 (Clients rows), t) ∧
    rows ≡ₚ t ∧ Sorted by_status_priority rows.
Proof.
  intros Hf Hst. exists (order_by by_status_priority t).
  split_and!.
  - rewrite (put_client_found _ _ c0) by done.
    rewrite status_step_skip by (cbn; tauto). cbn [snd].
    by rewrite priority_step_skip by auto.
  - apply order_by_Permutation.
  - apply (Sorted_order_by _).
Qed.

(** C6. On a table with unique ids, a lane change without a priority is
    answered with 200; the target ends with the new status and rank K + 1,
    K being the number of rows the destination lane held; the destination
    lane is its old rows and the target; the old lane keeps its other rows
    and their ranks are 1, ..., oldSize - 1. *)
Theorem lane_change_default_placement t z c0 s :
  NoDup (id <$> t) →
  find (has_id (Int z)) t = Some c0 →
  s ≠ "" → status c0 ≠ s →
  let K := Z.of_nat (length (lane s t)) in
  let oldSize := Z.of_nat (length (lane (status c0) t)) in
  ∃ rows t',
    put_client (Request (Int z) (Some s) None) t = (Response 200 (Clients rows), t') ∧
    find (has_id (Int z)) t' = Some (Client z s (K + 1)) ∧
    lane s t' ≡ₚ Client z s (K + 1) :: lane s t ∧
    id <$> lane (status c0) t'
      = id <$> filter (λ c, ¬ has_id (Int z) c) (lane (status c0) t) ∧
    priority <$> lane (status c0) t' = seqZ 1 (oldSize - 1).
Proof.
  intros Hnd Hf Hne Hs K oldSize.
  destruct (split_at_target _ _ _ Hnd Hf) as (ta & tb & -> & [= ->] & Hids & Hnd').
  exists (order_by by_status_priority (lane_changed ta tb c0 s)),
    (lane_changed ta tb c0 s).
  assert (lane s (ta ++ c0 :: tb) = lane s (ta ++ tb)) as HK
    by by apply lane_without_target.
  subst K oldSize. rewrite HK.
  split_and!.
  - rewrite (put_client_found _ _ c0) by done.
    rewrite (status_step_change _ _ _ s) by done. cbn [params_id].
    rewrite change_lane_split by done. cbn [snd].
    by rewrite priority_step_skip by auto.
  - by apply find_lane_changed.
  - rewrite other_lane_changed, decide_True by done.
    cbn [app]. by rewrite <-Permutation_middle, lane_app.
  - rewrite old_lane_changed by done. rewrite ids_reranked.
    rewrite lane_with_target, filter_out_target, lane_app; [done|].
    intros x Hx. apply Hids. rewrite <-lane_app in Hx.
    by apply elem_of_lane in Hx as [_ ?].
  - rewrite old_lane_priorities by done. f_equal.
    rewrite lane_with_target, lane_app, !length_app. cbn [length]. lia.
Qed.

(** ** A lane read back in priority order *)

Lemma StronglySorted_seqZ m n : StronglySorted Z.le (seqZ m n).
Proof.
  destruct (decide (n ≤ 0)) as [Hn|Hn].
  { rewrite seqZ_nil by done. constructor. }
  rewrite <-(Z2Nat.id n) by lia. generalize (Z.to_nat n) as k. clear.
  intros k. revert m. induction k as [|k IH]; intros m.
  - rewrite seqZ_nil by done. constructor.
  - rewrite seqZ_cons by lia. constructor.
    + replace (Z.pred (Z.of_nat (S k))) with (Z.of_nat k) by lia. apply IH.
    + apply Forall_seqZ. lia.
Qed.

(** A lane whose priorities are 1, ..., N comes back from
    [ORDER BY priority] with the priorities in that order. *)
Lemma sorted_lane_priorities s t :
  lane_ok s t →
  priority <$> order_by by_priority (lane s t)
    = seqZ 1 (Z.of_nat (length (lane s t))).
Proof.
  intros Hok. apply (Sorted_unique Z.le).
  - apply (Sorted_fmap _ by_priority); [done|].
    apply (Sorted_order_by _).
  - apply StronglySorted_Sorted, StronglySorted_seqZ.
  - by rewrite order_by_Permutation.
Qed.

Lemma splice_lookup {A} (l : list A) k y j x :
  (k ≤ length l)%nat → l !! j = Some x →
  (take k l ++ y :: drop k l) !! (if decide (j < k)%nat then j else S j) = Some x.
Proof.
  intros Hk Hj. case_decide as Hjk.
  - rewrite lookup_app_l by (rewrite length_take; lia).
    by rewrite lookup_take_lt.
  - rewrite lookup_app_r by (rewrite length_take; lia).
    rewrite length_take, Nat.min_l by lia.
    replace (S j - k)%nat with (S (j - k)) by lia.
    change ((y :: drop k l) !! S (j - k)%nat) with (drop k l !! (j - k)%nat).
    rewrite lookup_drop. by replace (k + (j - k))%nat with j by lia.
Qed.

Lemma splice_lookup_new {A} (l : list A) k y :
  (k ≤ length l)%nat → (take k l ++ y :: drop k l) !! k = Some y.
Proof.
  intros Hk. rewrite lookup_app_r by (rewrite length_take; lia).
  rewrite length_take, Nat.min_l by lia. by rewrite Nat.sub_diag.
Qed.

Section shift.
Context (t1 : table) (c0 c1 : client) (s : string) (p : Z).
Hypothesis unique : NoDup (id <$> t1).
Hypothesis target : c1 ∈ lane s t1.
Hypothesis stale : id c0 = id c1.
Hypothesis ranked : lane_ok s t1.
Hypothesis valid : 1 ≤ p ≤ Z.of_nat (length (lane s t1)).

Let i := Int (id c1).
Let ranks := id <$> splice_in (p - 1) c0 (swimlane i s t1).

(** The lane in priority order: the rows ranked below the target, the
    target, the rows ranked above it. *)
Lemma sorted_lane_split :
  ∃ A B, order_by by_priority (lane s t1) = A ++ c1 :: B ∧
    (∀ x, x ∈ A ++ B → id x ≠ id c1) ∧
    priority <$> A = seqZ 1 (Z.of_nat (length A)) ∧
    priority c1 = Z.of_nat (length A) + 1 ∧
    priority <$> B = seqZ (Z.of_nat (length A) + 2) (Z.of_nat (length B)) ∧
    length (lane s t1) = (length A + S (length B))%nat.
Proof.
  pose proof (sorted_lane_priorities s t1 ranked) as Hpr.
  pose proof (order_by_Permutation by_priority (lane s t1)) as Hperm.
  destruct (split_unique (order_by by_priority (lane s t1)) c1)
    as (A & B & HS & Hids).
  { rewrite Hperm. by apply NoDup_ids_filter. }
  { by rewrite Hperm. }
  exists A, B. rewrite HS in Hpr, Hperm.
  assert (length (lane s t1) = (length A + S (length B))%nat) as Hlen.
  { by rewrite <-Hperm, length_app. }
  rewrite Hlen, Nat2Z.inj_add, Nat2Z.inj_succ, <-Z.add_1_l in Hpr.
  rewrite fmap_app, fmap_cons, seqZ_app, (seqZ_app _ 1) in Hpr by lia.
  apply app_inj_1 in Hpr as [HA HB];
    [|by rewrite length_fmap, length_seqZ, Nat2Z.id].
  injection HB as Hc HB. split_and!; [done..|lia| |done].
  rewrite HB. f_equal. lia.
Qed.

(** The new position of every row of the lane. *)
Lemma rank_of_row c :
  c ∈ lane s t1 →
  ∃ m, index_of (id c) ranks = Some m ∧
    Z.of_nat m + 1 = shifted (priority c1) p (priority c).
Proof.
  intros Hc.
  destruct sorted_lane_split as (A & B & HS & Hids & HA & Hr & HB & Hlen).
  assert (swimlane i s t1 = A ++ B) as Hswim.
  { unfold swimlane. rewrite HS. by apply filter_out_target. }
  assert (ranks = id <$> (take (Z.to_nat (p - 1)) (A ++ B)
                          ++ c0 :: drop (Z.to_nat (p - 1)) (A ++ B))) as Hranks.
  { unfold ranks. rewrite Hswim, splice_in_valid; [done|].
    rewrite length_app. lia. }
  assert (Z.to_nat (p - 1) ≤ length (A ++ B))%nat as Hk
    by (rewrite length_app; lia).
  assert (∀ m, ranks !! m = Some (id c) → index_of (id c) ranks = Some m)
    as Hidx by (intros m; apply index_of_lookup, ranks_NoDup; done).
  assert (c ∈ A ++ c1 :: B) as Hin
    by (by rewrite <-HS, order_by_Permutation).
  apply elem_of_app in Hin as [Hin | Hin]; [|apply elem_of_cons in Hin as [->|Hin]].
  - apply list_elem_of_lookup_1 in Hin as [j Hj].
    assert (priority c = 1 + Z.of_nat j) as Hq.
    { apply (f_equal (λ l, l !! j)) in HA.
      rewrite list_lookup_fmap, Hj in HA. simpl in HA.
      symmetry in HA. apply lookup_seqZ in HA as [? _]. done. }
    apply lookup_lt_Some in Hj as Hlt.
    eexists. split.
    + apply Hidx. rewrite Hranks, list_lookup_fmap.
      rewrite (splice_lookup _ _ _ j c); [done..|].
      by apply lookup_app_l_Some.
    + unfold shifted. repeat case_decide; lia.
  - exists (Z.to_nat (p - 1)). split.
    + apply Hidx. rewrite Hranks, list_lookup_fmap.
      rewrite splice_lookup_new by done. simpl. by rewrite stale.
    + unfold shifted. rewrite decide_True by done. lia.
  - apply list_elem_of_lookup_1 in Hin as [j Hj].
    assert (priority c = Z.of_nat (length A) + 2 + Z.of_nat j) as Hq.
    { apply (f_equal (λ l, l !! j)) in HB.
      rewrite list_lookup_fmap, Hj in HB. simpl in HB.
      symmetry in HB. apply lookup_seqZ in HB as [? _]. done. }
    apply lookup_lt_Some in Hj as Hlt.
    eexists. split.
    + apply Hidx. rewrite Hranks, list_lookup_fmap.
      rewrite (splice_lookup _ _ _ (length A + j) c); [done..|].
      rewrite lookup_app_r by lia.
      by replace (length A + j - length A)%nat with j by lia.
    + unfold shifted. repeat case_decide; lia.
Qed.

(** The table after the reorder, row by row. *)
Lemma reorder_shifts :
  reranked 0 ranks t1 =
    (λ c, if decide (status c = s)
          then Client (id c) (status c) (shifted (priority c1) p (priority c))
          else c) <$> t1.
Proof.
  unfold reranked. apply list_fmap_ext. intros n c Hn.
  apply list_elem_of_lookup_2 in Hn. case_decide as Hs.
  - destruct (rank_of_row c) as (m & -> & <-); [by apply elem_of_lane|].
    f_equal; lia.
  - assert (index_of (id c) ranks = None) as ->; [|done].
    apply index_of_None. unfold ranks, i.
    rewrite <-(ranks_perm t1 c0 c1) by done.
    apply other_lane_not_ranked; [done..|congruence].
Qed.
End shift.

(** ** The stale [client] object *)



Lemma find_fmap_id (f : client → client) i l :
  (∀ c, id (f c) = id c) →
  find (has_id i) (f <$> l) = f <$> find (has_id i) l.
Proof.
  intros Hf. unfold find. rewrite list_find_fmap.
  rewrite (list_find_ext _ (has_id i)).
  - by destruct (list_find (has_id i) l) as [[??]|].
  - intros c. unfold has_id. simpl. by rewrite Hf.
Qed.

(** ** The lane after a reorder, read back in priority order *)

Lemma elem_of_reranked_rank k ids l c :
  c ∈ reranked k ids l → id c ∈ ids →
  ∃ m, index_of (id c) ids = Some m ∧ priority c = k + Z.of_nat m + 1.
Proof.
  intros (c' & -> & Hc')%list_elem_of_fmap Hin.
  destruct (index_of (id c') ids) as [m|] eqn:Hm; simpl in *; [by eauto|].
  by apply index_of_None in Hm.
Qed.


Lemma currentStatus_same z st c0 p :
  st = None ∨ st = Some (status c0) →
  currentStatus (Request (Int z) st p) c0 = status c0.
Proof. unfold currentStatus. intros [-> | ->]; cbn; [done | by case_decide]. Qed.

Lemma lane_priority_range s (t : table) n c :
  priority <$> lane s t ≡ₚ seqZ 1 n → c ∈ t → status c = s →
  1 ≤ priority c ≤ n.
Proof.
  intros Hp Hc Hs.
  assert (priority c ∈ seqZ 1 n) as Hin.
  { rewrite <-Hp. apply list_elem_of_fmap_2. by apply elem_of_lane. }
  apply elem_of_seqZ in Hin. lia.
Qed.




(** ** Failures *)

Lemma swimlane_length_snapshot i s (t : table) :
  length (swimlane i s t) = length (filter (λ c, ¬ has_id i c) (lane s t)).
Proof.
  unfold swimlane. by rewrite order_by_Permutation.
Qed.

(** The lane a lane change puts the target in, without the target, is the
    lane the snapshot had. *)
Lemma swimlane_length_changed ta tb c0 s :
  (∀ c, c ∈ ta ++ tb → id c ≠ id c0) → NoDup (id <$> (ta ++ tb)) →
  status c0 ≠ s →
  length (swimlane (Int (id c0)) s (lane_changed ta tb c0 s))
    = length (filter (λ c, ¬ has_id (Int (id c0)) c) (lane s (ta ++ c0 :: tb))).
Proof.
  intros Hids Hnd Hs. rewrite swimlane_length_snapshot.
  rewrite other_lane_changed, decide_True by done. cbn [app].
  rewrite (lane_without_target ta tb c0 s) by done.
  rewrite (filter_out_target _ _ (Client (id c0) s _)).
  - rewrite <-lane_app. symmetry. f_equal. apply filter_all.
    intros c [_ Hc]%elem_of_lane [= E]. by apply (Hids c).
  - intros c Hc. rewrite <-lane_app in Hc.
    apply elem_of_lane in Hc as [_ Hc]. by apply Hids.
Qed.

(** C3, as the handler has it. On a table with unique ids, a priority
    other than 0 that lies outside 1 .. N + 1, N being the number of rows of
    the effective lane other than the target, is answered with 400
    "Invalid priority." and a message that gives the bound N + 1; the
    table is left as it was when the request asks for no lane change. *)
Theorem invalid_priority_rejected req t c0 p :
  NoDup (id <$> t) →
  find (has_id (params_id req)) t = Some c0 →
  body_priority req = Some p → p ≠ 0 →
  let N := Z.of_nat (length (filter (λ c, ¬ has_id (params_id req) c)
                               (lane (currentStatus req c0) t))) in
  p < 1 ∨ p > N + 1 →
  ∃ t',
    put_client req t =
      (Response 400
         (MessageObj "Invalid priority."
            (Some ("Priority must be between 1 and " +:+ pretty (N + 1) +:+ "."))),
       t') ∧
    (currentStatus req c0 = status c0 → t' = t).
Proof.
  intros Hnd Hf Hp Hp0 N HN. subst N.
  rewrite (put_client_found _ _ _ Hf).
  destruct (split_at_target _ _ _ Hnd Hf) as (ta & tb & -> & Hi & Hids & Hnd').
  rewrite (priority_step_reorder _ _ p), Hi in * by done.
  destruct (status_step_cases req ta tb c0 Hids Hnd' Hi)
    as [[Hst Hcs] | (s & Hbs & Hne & Hs & Hcs & Hst)];
    rewrite Hst, Hcs in *; cbn [snd].
  - rewrite <-swimlane_length_snapshot in HN |- *.
    rewrite reorder_invalid by done. eauto.
  - rewrite <-swimlane_length_changed in HN |- * by done.
    rewrite reorder_invalid by done. eexists. split; [done|].
    intros E. by destruct Hs.
Qed.

(** C1, as the handler has it. An id that no row has is answered with 400
    and no write.  A priority other than 0 outside the range of its lane
    is answered with 400 "Invalid priority." after the status step has
    run: the table is the one the same request without the priority
    leaves, which is the snapshot when the request names no status, an
    empty one or the target's own. *)
Theorem failure_leaves_status_step req t :
  (find (has_id (params_id req)) t = None →
     ∃ m, put_client req t = (Response 400 (MessageObj "Invalid id provided." m), t)) ∧
  (∀ c0 p,
     find (has_id (params_id req)) t = Some c0 →
     body_priority req = Some p → p ≠ 0 →
     let t1 := (put_client (Request (params_id req) (body_status req) None) t).2 in
     let bound :=
       Z.of_nat (length (swimlane (params_id req) (currentStatus req c0) t1)) + 1 in
     p < 1 ∨ p > bound →
     put_client req t = (invalid_priority bound, t1) ∧
     (body_status req = None ∨ body_status req = Some "" ∨
        body_status req = Some (status c0) → t1 = t)).
Proof.
  split.
  - intros Hf. destruct (params_id req) eqn:Hi.
    + destruct req; simpl in *; subst. eauto.
    + rewrite put_client_unknown by (by rewrite Hi). eauto.
  - intros c0 p Hf Hp Hp0 t1 bound Hb.
    assert (t1 = (status_step req c0 t t).2) as Ht1.
    { unfold t1. rewrite (put_client_found _ _ c0) by done.
      rewrite priority_step_skip by auto.
      unfold status_step. by destruct req. }
    clearbody t1. subst t1. split.
    + rewrite (put_client_found _ _ _ Hf).
      rewrite (priority_step_reorder _ _ p) by done.
      by rewrite reorder_invalid by done.
    + intros Hst. by rewrite status_step_skip.
Qed.

(** ** Checking the ranking invariant of a given table *)

Lemma lanes_ok_check t :
  Forall (λ c, lane_ok (status c) t) t → ∀ s, lane_ok s t.
Proof.
  intros Hall s. destruct (lane s t) as [|c l] eqn:E.
  - unfold lane_ok. by rewrite E.
  - assert (c ∈ lane s t) as [<- Hc]%elem_of_lane by (rewrite E; by left).
    by eapply Forall_forall in Hall.
Qed.

(** ** The handler on given tables *)

(** C1, as stated, fails: a lane change with a priority out of range is
    answered with 400 after the lane change has been written. *)
Lemma rejected_request_has_written :
  ¬ (∀ req t, code (put_client req t).1 ≠ 200 → (put_client req t).2 = t).
Proof.
  intros H.
  pose proof (H (Request (Int 3) (Some "complete") (Some 9)) board) as Hx.
  vm_compute in Hx. specialize (Hx ltac:(discriminate)). discriminate Hx.
Qed.

(** C3, as stated, fails twice: priority 0 is answered with 200, and a
    priority of N + 2 sent with a lane change is answered with 400 after
    the lane change has been written. *)
Lemma zero_accepted_and_rejection_after_write :
  code (put_client (Request (Int 1) None (Some 0)) board).1 = 200 ∧
  code (put_client (Request (Int 3) (Some "complete") (Some 4)) board).1 = 400 ∧
  (put_client (Request (Int 3) (Some "complete") (Some 4)) board).2 ≠ board.
Proof. split_and!; [done..|]. vm_compute. discriminate. Qed.

(** C4: the handler does not look at what the status is.  A status that
    is no lane is answered with 200, and the row is written with it. *)
Theorem unknown_status_is_written :
  put_client (Request (Int 3) (Some "archived") None) board =
    (Response 200 (Clients
       [ Client 3 "archived" 1; Client 1 "backlog" 1; Client 2 "backlog" 2;
         Client 5 "complete" 1; Client 6 "complete" 2;
         Client 4 "in-progress" 1 ]),
     [ Client 1 "backlog" 1; Client 2 "backlog" 2; Client 3 "archived" 1;
       Client 4 "in-progress" 1; Client 5 "complete" 1; Client 6 "complete" 2 ]).
Proof. vm_compute. reflexivity. Qed.

(** C5: the old lane is re-ranked in storage order, not in priority
    order.  After row 2 has been moved to the top of the backlog, moving
    row 3 out of the backlog puts row 1 above row 2 again: the row with
    the smallest priority left (row 2, priority 1) gets rank 2. *)
Theorem old_lane_reranked_in_storage_order :
  (put_client (Request (Int 2) None (Some 1)) board0).2 = board ∧
  lane "backlog" board = [ Client 1 "backlog" 2; Client 2 "backlog" 1;
                           Client 3 "backlog" 3 ] ∧
  lane "backlog" (put_client (Request (Int 3) (Some "complete") None) board).2
    = [ Client 1 "backlog" 1; Client 2 "backlog" 2 ].
Proof. split_and!; vm_compute; reflexivity. Qed.

(** Rows of equal priority are read in storage order: on three rows
    tied at priority 1, asking priority 1 for the first leaves them ranked
    1, 2, 3 as they are stored. *)
Lemma tied_rows_in_storage_order :
  (put_client (Request (Int 1) None (Some 1))
     [ Client 1 "backlog" 1; Client 2 "backlog" 1; Client 3 "backlog" 1 ]).2
  = [ Client 1 "backlog" 1; Client 2 "backlog" 2; Client 3 "backlog" 3 ].
Proof. vm_compute. reflexivity. Qed.

(** ** The claims on given tables *)

Lemma board_ids : NoDup (id <$> board).
Proof. by apply (bool_decide_unpack _). Qed.

Lemma lane5_ids : NoDup (id <$> lane5).
Proof. by apply (bool_decide_unpack _). Qed.

Lemma board_lanes s : lane_ok s board.
Proof. revert s. apply lanes_ok_check. by apply (bool_decide_unpack _). Qed.

Lemma ranks_stay_contiguous_witness :
  lane_ok "backlog"
    (put_client (Request (Int 3) (Some "complete") (Some 1)) board).2 ∧
  lane_ok "complete"
    (put_client (Request (Int 3) (Some "complete") (Some 1)) board).2.
Proof.
  split;
    apply (ranks_stay_contiguous (Request (Int 3) (Some "complete") (Some 1)) board
             (put_client (Request (Int 3) (Some "complete") (Some 1)) board).1 _
             board_ids board_lanes (surjective_pairing _) eq_refl).
Defined.

Lemma other_lanes_untouched_witness :
  (put_client (Request (Int 3) (Some "complete") (Some 1)) board).2 !! 3%nat
    = Some (Client 4 "in-progress" 1).
Proof.
  apply (other_lanes_untouched (Request (Int 3) (Some "complete") (Some 1)) board
           (Client 3 "backlog" 3) _ _ board_ids eq_refl (surjective_pairing _)).
  - reflexivity.
  - discriminate.
  - discriminate.
Defined.

Lemma noop_returns_snapshot_witness :
  ∃ rows,
    put_client (Request (Int 1) (Some "backlog") None) board
      = (Response 200 (Clients rows), board) ∧
    rows ≡ₚ board ∧ Sorted by_status_priority rows.
Proof.
  apply (noop_returns_snapshot board 1 (Client 1 "backlog" 2) (Some "backlog")).
  - reflexivity.
  - right. reflexivity.
Defined.

Lemma lane_change_default_placement_witness :
  ∃ rows t',
    put_client (Request (Int 3) (Some "complete") None) board
      = (Response 200 (Clients rows), t') ∧
    find (has_id (Int 3)) t' = Some (Client 3 "complete" 3) ∧
    lane "complete" t' ≡ₚ Client 3 "complete" 3 :: lane "complete" board ∧
    id <$> lane "backlog" t' = [1; 2] ∧
    priority <$> lane "backlog" t' = [1; 2].
Proof.
  apply (lane_change_default_placement board 3 (Client 3 "backlog" 3) "complete").
  - apply board_ids.
  - reflexivity.
  - discriminate.
  - discriminate.
Defined.

Lemma invalid_priority_rejected_witness :
  ∃ t',
    put_client (Request (Int 1) None (Some 7)) board =
      (Response 400
         (MessageObj "Invalid priority."
            (Some "Priority must be between 1 and 3.")), t') ∧
    ("backlog" = "backlog" → t' = board).
Proof.
  apply (invalid_priority_rejected (Request (Int 1) None (Some 7)) board
           (Client 1 "backlog" 2) 7).
  - apply board_ids.
  - reflexivity.
  - reflexivity.
  - discriminate.
  - right. reflexivity.
Defined.

Lemma failure_leaves_status_step_witness :
  put_client (Request (Int 3) (Some "complete") (Some 9)) board =
    (invalid_priority 3,
     (put_client (Request (Int 3) (Some "complete") None) board).2).
Proof.
  apply (proj2 (failure_leaves_status_step
                  (Request (Int 3) (Some "complete") (Some 9)) board)
           (Client 3 "backlog" 3) 9).
  - reflexivity.
  - reflexivity.
  - discriminate.
  - right. reflexivity.
Defined.



(** ** Rows under any request *)

Lemma keeps_rows_id i : keeps_rows i (λ c, c).
Proof. by intros c. Qed.

Lemma keeps_rows_compose i f g :
  keeps_rows i f → keeps_rows i g → keeps_rows i (g ∘ f).
Proof.
  intros Hf Hg c. destruct (Hf c) as [Hid Hst], (Hg (f c)) as [Hid' Hst'].
  simpl. split; [congruence|]. intros Hc. rewrite Hst', Hst; [done..|].
  unfold has_id in *. by rewrite Hid.
Qed.

Lemma rerank_from_rows i k l t :
  ∃ f, keeps_rows i f ∧ rerank_from k l t = ((), f <$> t).
Proof.
  revert k t. induction l as [|c l IH]; intros k t.
  - exists (λ c, c). split; [apply keeps_rows_id|].
    cbn. by rewrite list_fmap_id.
  - destruct (IH (k + 1) (set_priority (k + 1) (Int (id c)) t)) as (f & Hf & E).
    exists (f ∘ (λ x, if decide (has_id (Int (id c)) x)
                      then Client (id x) (status x) (k + 1) else x)).
    split; last first.
    + cbn [rerank_from]. unfold mbind, DB_bind, db_run_set_priority.
      rewrite E. unfold set_priority. by rewrite list_fmap_compose.
    + apply keeps_rows_compose; [|done]. intros x. by case_decide.
Qed.

Lemma change_lane_rows i c0 clients s t :
  ∃ f, keeps_rows i f ∧ change_lane i c0 clients s t = ((), f <$> t).
Proof.
  unfold change_lane, mbind, DB_bind, db_run_set_status, db_run_set_priority.
  destruct (rerank_from_rows i 0
    (filter (λ c, status c = status c0 ∧ ¬ has_id i c) clients)
    (set_status s i t)) as (f & Hf & ->).
  exists ((λ c, if decide (has_id i c)
                then Client (id c) (status c)
                       (Z.of_nat (length (lane s clients)) + 1)
                else c)
          ∘ (f ∘ (λ c, if decide (has_id i c)
                       then Client (id c) s (priority c) else c))).
  split; last first.
  - unfold set_priority, set_status. by rewrite !list_fmap_compose.
  - apply keeps_rows_compose; [apply keeps_rows_compose; [|done]|].
    + intros x. by case_decide.
    + intros x. by case_decide.
Qed.

Lemma reorder_rows i c0 s p t :
  ∃ f, keeps_rows i f ∧ (reorder i c0 s p t).2 = f <$> t.
Proof.
  unfold reorder, mbind, DB_bind, db_all_status_by_priority.
  case_decide.
  - exists (λ c, c). split; [apply keeps_rows_id|]. cbn. by rewrite list_fmap_id.
  - destruct (rerank_from_rows i 0
      (splice_in (p - 1) c0 (filter (λ c, ¬ has_id i c)
         (order_by by_priority (lane s t)))) t) as (f & Hf & ->).
    by exists f.
Qed.

Lemma put_client_rows req t :
  ∃ f, keeps_rows (params_id req) f ∧ (put_client req t).2 = f <$> t.
Proof.
  destruct (find (has_id (params_id req)) t) as [c0|] eqn:Hf; last first.
  { exists (λ c, c). split; [apply keeps_rows_id|]. rewrite list_fmap_id.
    destruct (params_id req) eqn:Hi.
    - by destruct req; simpl in *; subst.
    - by rewrite put_client_unknown by (by rewrite Hi). }
  rewrite (put_client_found _ _ _ Hf).
  assert (∃ f, keeps_rows (params_id req) f ∧
            (status_step req c0 t t).2 = f <$> t) as (f & Hkf & ->).
  { unfold status_step. destruct (body_status req) as [s|]; [case_decide|].
    - destruct (change_lane_rows (params_id req) c0 t s t) as (f & Hkf & ->).
      by exists f.
    - exists (λ c, c). split; [apply keeps_rows_id|]. cbn. by rewrite list_fmap_id.
    - exists (λ c, c). split; [apply keeps_rows_id|]. cbn. by rewrite list_fmap_id. }
  assert (∃ g, keeps_rows (params_id req) g ∧
            (priority_step req c0 (f <$> t)).2 = g <$> (f <$> t)) as (g & Hkg & E).
  { unfold priority_step. destruct (body_priority req) as [p|]; [case_decide|].
    - apply reorder_rows.
    - exists (λ c, c). split; [apply keeps_rows_id|]. cbn. by rewrite list_fmap_id.
    - exists (λ c, c). split; [apply keeps_rows_id|]. cbn. by rewrite list_fmap_id. }
  exists (g ∘ f). split; [by apply keeps_rows_compose|].
  rewrite list_fmap_compose, <-E.
  by destruct (priority_step req c0 (f <$> t)) as [[r|] t2].
Qed.

Lemma priority_step_early req c0 t r t2 :
  priority_step req c0 t = (Some r, t2) → code r = 400 ∧ t2 = t.
Proof.
  unfold priority_step. destruct (body_priority req) as [p|]; [|done].
  case_decide; [|done].
  unfold reorder, mbind, DB_bind, db_all_status_by_priority.
  case_decide.
  - by intros [= <- <-].
  - by destruct (rerank_from _ _ t) as [[] ?].
Qed.

(** ** Further properties of the handlers *)

(** X1. [validateId] never writes, and it accepts an id exactly when it
    is a number that some row of the table has. *)
Theorem validateId_accepts_present i t :
  (validateId i t).2 = t ∧
  ((validateId i t).1 = None ↔ ∃ c, c ∈ t ∧ i = Int (id c)).
Proof.
  unfold validateId, mbind, DB_bind, db_get_by_id. destruct i as [|z].
  - split; [done|]. split; [done|]. by intros (c & _ & ?).
  - destruct (find (has_id (Int z)) t) as [c|] eqn:Hf; simpl.
    + split; [done|]. split; [|done]. intros _. exists c.
      by apply find_has_id in Hf.
    + split; [done|]. split; [done|]. intros (c & Hc & Hi).
      by eapply (find_None (has_id (Int z))) in Hf.
Qed.

(** X2. The update handler answers 200 or 400, and nothing else: its
    404 "Client not found." is never sent, an id that no row has being
    answered by [validateId]'s 400 before. *)
Theorem put_client_answers_200_or_400 req t :
  (code (put_client req t).1 = 200 ∨ code (put_client req t).1 = 400) ∧
  sent (put_client req t).1 ≠ MessageObj "Client not found." None.
Proof.
  destruct (find (has_id (params_id req)) t) as [c0|] eqn:Hf.
  - rewrite (put_client_found _ _ _ Hf).
    destruct (priority_step req c0 _) as [[r|] t2] eqn:Hp; [|by auto].
    apply priority_step_early in Hp as Hc. cbn [fst]. split; [tauto|].
    unfold priority_step in Hp. destruct (body_priority req); [|done].
    case_decide; [|done].
    unfold reorder, mbind, DB_bind, db_all_status_by_priority in Hp.
    case_decide.
    + by injection Hp as <- _.
    + by destruct (rerank_from _ _ _) as [[] ?].
  - destruct (params_id req) eqn:Hi.
    + destruct req; simpl in *; subst. by auto.
    + rewrite put_client_unknown by (by rewrite Hi). by auto.
Qed.

(** X3. Whatever the request and the table (ids unique or not), the update
    handler neither adds nor removes a row nor changes an id, and it
    changes the status of no row other than those with the id of the
    request. *)
Theorem put_client_keeps_rows req t :
  id <$> (put_client req t).2 = id <$> t ∧
  ∀ n c c', t !! n = Some c → (put_client req t).2 !! n = Some c' →
    ¬ has_id (params_id req) c → status c' = status c.
Proof.
  destruct (put_client_rows req t) as (f & Hf & ->). split.
  - rewrite <-list_fmap_compose. apply list_fmap_ext. intros _ c _.
    apply Hf.
  - intros n c c' Hn Hn' Hc. rewrite list_lookup_fmap, Hn in Hn'.
    injection Hn' as <-. by apply Hf.
Qed.

(** X4. Every 200 of the update handler carries the whole table as the
    handler left it, in (status, priority) order. *)
Theorem put_client_200_body req t r t' :
  put_client req t = (r, t') → code r = 200 →
  ∃ rows, sent r = Clients rows ∧ rows ≡ₚ t' ∧ Sorted by_status_priority rows.
Proof.
  intros Hput Hcode.
  destruct (find (has_id (params_id req)) t) as [c0|] eqn:Hf; last first.
  { destruct (params_id req) eqn:Hi.
    - destruct req; simpl in *; subst. by inv Hput.
    - rewrite put_client_unknown in Hput by (by rewrite Hi). by inv Hput. }
  rewrite (put_client_found _ _ _ Hf) in Hput.
  destruct (priority_step req c0 _) as [[r'|] t2] eqn:Hp.
  - apply priority_step_early in Hp as [Hc _]. inv Hput. lia.
  - inv Hput. eexists. split; [done|]. split.
    + apply order_by_Permutation.
    + apply (Sorted_order_by _).
Qed.

(** X5. A field that JavaScript takes for false is a field left out: the
    update handler treats an empty status as no status and a priority of
    0 as no priority, without an error. *)
Theorem falsy_fields_are_absent i st p t :
  put_client (Request i (Some "") p) t = put_client (Request i None p) t ∧
  put_client (Request i st (Some 0)) t = put_client (Request i st None) t.
Proof.
  destruct (find (has_id i) t) as [c0|] eqn:Hf.
  - rewrite !(put_client_found _ _ c0) by done. split.
    + rewrite !(status_step_skip _ c0 t t) by (cbn; auto). cbn [snd].
      unfold priority_step, currentStatus. cbn.
      by destruct p.
    + by rewrite !(priority_step_skip _ c0) by (cbn; auto).
  - destruct i as [|z]; [done|].
    by rewrite !put_client_unknown by done.
Qed.

(** ** The target after the two steps *)

Lemma find_elem_of_lane i (t : table) c :
  find (has_id i) t = Some c → c ∈ lane (status c) t.
Proof. intros [Hc _]%find_has_id. by apply elem_of_lane. Qed.

Lemma status_step_target req t c0 :
  NoDup (id <$> t) → find (has_id (params_id req)) t = Some c0 →
  ∃ c1 t1,
    status_step req c0 t t = ((), t1) ∧ NoDup (id <$> t1) ∧
    find (has_id (params_id req)) t1 = Some c1 ∧
    status c1 = currentStatus req c0 ∧ id c0 = id c1 ∧
    (∀ s, lane_ok s t → lane_ok s t1).
Proof.
  intros Hnd Hf.
  destruct (split_at_target _ _ _ Hnd Hf) as (ta & tb & -> & Hi & Hids & Hnd').
  destruct (status_step_cases req ta tb c0 Hids Hnd' Hi)
    as [[Hst Hcs] | (s & Hbs & Hne & Hs & Hcs & Hst)].
  - exists c0, (ta ++ c0 :: tb). by rewrite Hcs.
  - exists (Client (id c0) s (Z.of_nat (length (lane s (ta ++ tb))) + 1)),
      (lane_changed ta tb c0 s).
    rewrite Hcs, ids_lane_changed, Hi. split_and!; [done..| |done|done|].
    + by apply find_lane_changed.
    + intros s'. by apply lane_changed_ok.
Qed.

(** Once the status step has run, the request names the target's lane. *)
Lemma status_step_settled req c0 c1 clients t :
  status c1 = currentStatus req c0 →
  status_step req c1 clients t = ((), t) ∧
  currentStatus req c1 = currentStatus req c0.
Proof.
  unfold currentStatus, status_step. destruct (body_status req) as [s|].
  - destruct (decide (s ≠ "")) as [Hs|Hs]; intros E.
    + split; [|done]. rewrite decide_False; [done | by intros [_ ?]].
    + split; [|done]. rewrite decide_False; [done | by intros [? _]].
  - by intros E.
Qed.

Lemma reordered_target t1 c0 c1 s p :
  NoDup (id <$> t1) → find (has_id (Int (id c1))) t1 = Some c1 →
  status c1 = s → id c0 = id c1 →
  1 ≤ p ≤ Z.of_nat (length (swimlane (Int (id c1)) s t1)) + 1 →
  find (has_id (Int (id c1)))
    (reranked 0 (id <$> splice_in (p - 1) c0 (swimlane (Int (id c1)) s t1)) t1)
    = Some (Client (id c1) s p).
Proof.
  intros Hnd Hf Hs Hid Hp.
  assert (c1 ∈ lane s t1) as Hc1 by (rewrite <-Hs; by eapply find_elem_of_lane).
  unfold reranked. rewrite find_fmap_id, Hf.
  - cbn. rewrite (index_of_lookup _ _ (Z.to_nat (p - 1))).
    + rewrite Hs. do 2 f_equal. lia.
    + by apply ranks_NoDup.
    + rewrite splice_in_valid, list_lookup_fmap by lia.
      rewrite splice_lookup_new by lia. cbn. by rewrite Hid.
  - intros c. by destruct (index_of (id c) _).
Qed.

Lemma shifted_same r q : shifted r r q = q.
Proof. unfold shifted. repeat case_decide; lia. Qed.

Lemma shifted_back r p q : shifted p r (shifted r p q) = q.
Proof. unfold shifted. repeat case_decide; lia. Qed.

(** Asking for the rank the target has, in a lane ranked 1..N, writes
    every row of the lane as it is. *)
Lemma reorder_identity t1 c0 c1 s :
  NoDup (id <$> t1) → c1 ∈ lane s t1 → id c0 = id c1 → lane_ok s t1 →
  reorder (Int (id c1)) c0 s (priority c1) t1 = (None, t1).
Proof.
  intros Hnd Hc1 Hid Hok.
  pose proof Hc1 as [Hs Hin]%elem_of_lane.
  pose proof (lane_priority_range s t1 _ c1 Hok Hin Hs) as Hr.
  pose proof (swimlane_length t1 c0 c1 s (priority c1) Hnd Hc1 Hid) as Hlen.
  rewrite reorder_table by (done || lia).
  rewrite reorder_shifts by (done || lia).
  f_equal. rewrite <-(list_fmap_id t1) at 2. apply list_fmap_ext.
  intros _ c _. case_decide; [|done].
  rewrite shifted_same. by destruct c.
Qed.

(** X6. On a table with unique ids, whatever its ranks were, a request
    with a priority other than 0 that is answered with 200 leaves the
    target in the effective lane at exactly the rank asked for, and that
    lane ranked 1, ..., N. *)
Theorem priority_places_target req t c0 p r t' :
  NoDup (id <$> t) →
  find (has_id (params_id req)) t = Some c0 →
  body_priority req = Some p → p ≠ 0 →
  put_client req t = (r, t') → code r = 200 →
  find (has_id (params_id req)) t'
    = Some (Client (id c0) (currentStatus req c0) p) ∧
  lane_ok (currentStatus req c0) t' ∧
  1 ≤ p ≤ Z.of_nat (length (lane (currentStatus req c0) t')).
Proof.
  intros Hnd Hf Hp Hp0 Hput Hcode.
  rewrite (put_client_found _ _ _ Hf) in Hput.
  destruct (status_step_target req t c0 Hnd Hf)
    as (c1 & t1 & Hst & Hnd1 & Hf1 & Hs1 & Hid & _).
  rewrite Hst in Hput. cbn [snd] in Hput.
  pose proof (find_has_id _ _ _ Hf1) as [_ Hi].
  assert (c1 ∈ lane (currentStatus req c0) t1) as Hc1
    by (rewrite <-Hs1; by eapply find_elem_of_lane).
  destruct (priority_step_cases req c0 c1 t1 Hnd1 Hc1 Hid Hi)
    as [[_ [Hn | Hn]] | (p' & Hp' & _ & [[_ Hpr] | [Hv Hpr]])];
    [congruence | congruence | rewrite Hpr in Hput; by inv Hput |].
  assert (p' = p) as -> by congruence.
  rewrite Hpr in Hput. injection Hput as _ <-. rewrite Hi in *.
  pose proof (swimlane_length t1 c0 c1 _ p Hnd1 Hc1 Hid) as Hlen.
  split; [|split].
  - rewrite Hid. by apply reordered_target.
  - unfold lane_ok. rewrite length_lane_reranked.
    by apply reordered_lane_priorities.
  - rewrite length_lane_reranked. lia.
Qed.

(** X7. On a table with unique ids, in a lane ranked 1..N, moving the row
    of rank [r] to rank [p] is answered with 200 and changes the ranks
    between the two positions only: the rows from [p] up to the one
    before [r] go down by one when the target moves up, the rows after
    [r] up to [p] go up by one when it moves down, every other row of the
    lane keeps its rank and the rows of other lanes are left as they
    are. *)
Theorem reorder_shifts_between t z c0 st p :
  NoDup (id <$> t) →
  find (has_id (Int z)) t = Some c0 →
  st = None ∨ st = Some (status c0) →
  lane_ok (status c0) t →
  1 ≤ p ≤ Z.of_nat (length (lane (status c0) t)) →
  ∃ rows t',
    put_client (Request (Int z) st (Some p)) t
      = (Response 200 (Clients rows), t') ∧
    ∀ n c, t !! n = Some c →
      (status c ≠ status c0 → t' !! n = Some c) ∧
      (status c = status c0 →
         ∃ q, t' !! n = Some (Client (id c) (status c) q) ∧
           (priority c = priority c0 → q = p) ∧
           (priority c < priority c0 → priority c < p → q = priority c) ∧
           (priority c > priority c0 → priority c > p → q = priority c) ∧
           (p ≤ priority c < priority c0 → q = priority c + 1) ∧
           (priority c0 < priority c ≤ p → q = priority c - 1)).
Proof.
  intros Hnd Hf Hst Hok Hp.
  pose proof (find_has_id _ _ _ Hf) as [Hc0 [= ->]].
  assert (c0 ∈ lane (status c0) t) as Hlane by (by apply elem_of_lane).
  pose proof (swimlane_length t c0 c0 _ p Hnd Hlane eq_refl) as Hlen.
  rewrite (put_client_found _ _ c0) by done.
  rewrite status_step_skip by (cbn; tauto). cbn [snd].
  rewrite (priority_step_reorder _ _ p) by (done || lia).
  rewrite currentStatus_same by done. cbn [params_id].
  rewrite (reorder_table t c0 c0) by (done || lia).
  rewrite (reorder_shifts t c0 c0) by done.
  eexists _, _. split; [done|].
  intros n c Hn. rewrite list_lookup_fmap, Hn. cbn. split.
  - intros Hs. by rewrite decide_False.
  - intros Hs. rewrite decide_True by done. eexists. split; [done|].
    unfold shifted. split_and!; intros; repeat case_decide; lia.
Qed.

(** X8. On a table with unique ids the update is idempotent: a request
    answered with 200, sent again to the table it left, gets the same
    answer and leaves the table as it is. *)
Theorem put_client_idempotent req t r t' :
  NoDup (id <$> t) →
  put_client req t = (r, t') → code r = 200 →
  put_client req t' = (r, t').
Proof.
  intros Hnd Hput Hcode.
  destruct (find (has_id (params_id req)) t) as [c0|] eqn:Hf; last first.
  { destruct (params_id req) eqn:Hi.
    - destruct req; simpl in *; subst. by inv Hput.
    - rewrite put_client_unknown in Hput by (by rewrite Hi). by inv Hput. }
  rewrite (put_client_found _ _ _ Hf) in Hput.
  destruct (status_step_target req t c0 Hnd Hf)
    as (c1 & t1 & Hst & Hnd1 & Hf1 & Hs1 & Hid & _).
  rewrite Hst in Hput. cbn [snd] in Hput.
  pose proof (find_has_id _ _ _ Hf1) as [_ Hi].
  assert (c1 ∈ lane (currentStatus req c0) t1) as Hc1
    by (rewrite <-Hs1; by eapply find_elem_of_lane).
  destruct (priority_step_cases req c0 c1 t1 Hnd1 Hc1 Hid Hi)
    as [[Hpr Hn] | (p & Hp & Hp0 & [[_ Hpr] | [Hv Hpr]])];
    rewrite Hpr in Hput; inv Hput.
  - rewrite (put_client_found _ _ _ Hf1).
    destruct (status_step_settled req c0 c1 t' t' Hs1) as [-> _]. cbn [snd].
    by rewrite priority_step_skip.
  - set (t2 := reranked 0 _ t1).
    assert (find (has_id (params_id req)) t2
              = Some (Client (id c1) (currentStatus req c0) p)) as Hf2.
    { rewrite Hi in Hf1 |- *. by apply reordered_target. }
    assert (NoDup (id <$> t2)) as Hnd2 by (unfold t2; by rewrite ids_reranked).
    assert (lane_ok (currentStatus req c0) t2) as Hok2.
    { unfold lane_ok, t2. rewrite length_lane_reranked.
      by apply reordered_lane_priorities. }
    rewrite (put_client_found _ _ _ Hf2).
    destruct (status_step_settled req c0
                (Client (id c1) (currentStatus req c0) p) t2 t2 eq_refl)
      as [-> Hcs].
    cbn [snd]. rewrite (priority_step_reorder _ _ p), Hcs, Hi by done.
    rewrite (reorder_identity t2 _ (Client (id c1) (currentStatus req c0) p));
      [done..| |done|done].
    by apply (find_elem_of_lane (params_id req)) in Hf2.
Qed.

(** X9. On a table with unique ids, in a lane ranked 1..N, moving a row
    to another rank and then back to the rank it had gives the table it
    started from. *)
Theorem reorder_round_trip t z c0 p :
  NoDup (id <$> t) →
  find (has_id (Int z)) t = Some c0 →
  lane_ok (status c0) t →
  1 ≤ p ≤ Z.of_nat (length (lane (status c0) t)) →
  (put_client (Request (Int z) None (Some (priority c0)))
     (put_client (Request (Int z) None (Some p)) t).2).2 = t.
Proof.
  intros Hnd Hf Hok Hp.
  pose proof (find_has_id _ _ _ Hf) as [Hc0 [= ->]].
  assert (c0 ∈ lane (status c0) t) as Hlane by (by apply elem_of_lane).
  pose proof (swimlane_length t c0 c0 _ p Hnd Hlane eq_refl) as Hlen.
  pose proof (lane_priority_range _ t _ c0 Hok Hc0 eq_refl) as Hr.
  rewrite (put_client_found (Request _ None (Some p)) t c0) by done.
  rewrite status_step_skip by (cbn; tauto). cbn [snd].
  rewrite (priority_step_reorder _ _ p) by (done || lia).
  rewrite currentStatus_same by auto. cbn [params_id].
  rewrite (reorder_table t c0 c0) by (done || lia). cbn [snd].
  set (t2 := reranked 0 _ t).
  assert (find (has_id (Int (id c0))) t2 = Some (Client (id c0) (status c0) p))
    as Hf2 by (apply reordered_target; done || lia).
  assert (NoDup (id <$> t2)) as Hnd2 by (unfold t2; by rewrite ids_reranked).
  assert (lane_ok (status c0) t2) as Hok2.
  { unfold lane_ok, t2. rewrite length_lane_reranked.
    by apply reordered_lane_priorities. }
  assert (length (lane (status c0) t2) = length (lane (status c0) t)) as Hlen2
    by apply length_lane_reranked.
  set (c2 := Client (id c0) (status c0) p) in *.
  assert (c2 ∈ lane (status c0) t2) as Hlane2
    by (by apply (find_elem_of_lane (Int (id c0))) in Hf2).
  pose proof (swimlane_length t2 c2 c2 _ (priority c0) Hnd2 Hlane2 eq_refl)
    as Hlen3.
  rewrite (put_client_found _ t2 c2) by done.
  rewrite status_step_skip by (cbn; tauto). cbn [snd].
  rewrite (priority_step_reorder _ _ (priority c0)) by (done || lia).
  unfold currentStatus. cbn [body_status params_id status c2].
  change (Int (id c0)) with (Int (id c2)).
  rewrite (reorder_table t2 c2 c2) by (done || lia). cbn [snd].
  rewrite (reorder_shifts t2 c2 c2) by (done || lia).
  unfold t2. change (id c2) with (id c0).
  rewrite (reorder_shifts t c0 c0) by done.
  rewrite <-list_fmap_compose. etrans; [|apply (list_fmap_id t)].
  apply list_fmap_ext. intros _ c _. cbn.
  destruct (decide (status c = status c0)) as [Hs|Hs]; cbn.
  - rewrite decide_True by done. rewrite shifted_back. by destruct c.
  - by rewrite decide_False.
Qed.

(** X10. On a table with unique ids, moving a row into a lane ranked 1..K
    with the explicit priority K + 1 does what the same lane change
    without a priority does: same answer, same table. *)
Theorem explicit_last_is_default t z c0 s :
  NoDup (id <$> t) →
  find (has_id (Int z)) t = Some c0 →
  s ≠ "" → status c0 ≠ s →
  lane_ok s t →
  put_client (Request (Int z) (Some s)
                (Some (Z.of_nat (length (lane s t)) + 1))) t
    = put_client (Request (Int z) (Some s) None) t.
Proof.
  intros Hnd Hf Hne Hs Hok.
  destruct (split_at_target _ _ _ Hnd Hf) as (ta & tb & -> & [= ->] & Hids & Hnd').
  rewrite !(put_client_found _ _ c0) by done.
  rewrite !(status_step_change _ _ _ s) by done. cbn [params_id].
  rewrite change_lane_split by done. cbn [snd].
  rewrite (priority_step_skip (Request _ _ None)) by auto.
  rewrite (priority_step_reorder _ _ (Z.of_nat (length (lane s (ta ++ c0 :: tb))) + 1))
    by (done || lia).
  unfold currentStatus. cbn [body_status params_id].
  rewrite decide_True by done.
  rewrite (lane_without_target ta tb c0 s) by done.
  set (moved := Client (id c0) s (Z.of_nat (length (lane s (ta ++ tb))) + 1)).
  change (Int (id c0)) with (Int (id moved)).
  change (Z.of_nat (length (lane s (ta ++ tb))) + 1) with (priority moved).
  rewrite (reorder_identity _ c0 moved); [done| | |done|].
  - change (NoDup (id <$> lane_changed ta tb c0 s)).
    by rewrite ids_lane_changed.
  - apply elem_of_lane. split; [done|]. apply elem_of_app. right. by left.
  - change (lane_ok s (lane_changed ta tb c0 s)). by apply lane_changed_ok.
Qed.

(** ** The listing *)

Lemma get_clients_recognized s t :
  recognized s → get_clients (Some s) t = (Response 200 (Clients (lane s t)), t).
Proof.
  intros Hs. unfold get_clients.
  rewrite decide_True by (by destruct Hs as [-> | [-> | ->]]).
  rewrite decide_False; [done|]. unfold recognized in Hs. tauto.
Qed.

Lemma lanes_partition (t : table) :
  (∀ c, c ∈ t → recognized (status c)) →
  lane "backlog" t ++ lane "in-progress" t ++ lane "complete" t ≡ₚ t.
Proof.
  induction t as [|x t IH]; intros Hall; [done|].
  assert (lane "backlog" t ++ lane "in-progress" t ++ lane "complete" t ≡ₚ t)
    as IH' by (apply IH; intros c Hc; apply Hall; by right).
  rewrite !lane_cons.
  destruct (Hall x) as [E | [E | E]]; [by left|..]; rewrite E;
    repeat case_decide; try done.
  - cbn [app]. by rewrite IH'.
  - cbn [app]. by rewrite <-Permutation_middle, IH'.
  - by rewrite app_assoc, <-Permutation_middle, <-app_assoc, IH'.
Qed.

(** X11. For one of the three lanes the listing answers 200 with exactly
    the rows of the table that have that status, in storage order, and
    writes nothing. *)
Theorem get_clients_lists_lane s t :
  recognized s →
  ∃ rows,
    get_clients (Some s) t = (Response 200 (Clients rows), t) ∧
    rows `sublist_of` t ∧
    ∀ c, c ∈ rows ↔ c ∈ t ∧ status c = s.
Proof.
  intros Hs. exists (lane s t). split_and!.
  - by apply get_clients_recognized.
  - apply sublist_filter.
  - intros c. rewrite elem_of_lane. tauto.
Qed.

(** X12. When every row has one of the three statuses, the three filtered
    listings together are the unfiltered one: each row is in exactly one
    of them. *)
Theorem get_clients_partition t :
  (∀ c, c ∈ t → recognized (status c)) →
  ∃ b p c,
    get_clients (Some "backlog") t = (Response 200 (Clients b), t) ∧
    get_clients (Some "in-progress") t = (Response 200 (Clients p), t) ∧
    get_clients (Some "complete") t = (Response 200 (Clients c), t) ∧
    get_clients None t = (Response 200 (Clients t), t) ∧
    b ++ p ++ c ≡ₚ t.
Proof.
  intros Hall.
  exists (lane "backlog" t), (lane "in-progress" t), (lane "complete" t).
  split_and!; [by apply get_clients_recognized; unfold recognized; auto..|done|].
  by apply lanes_partition.
Qed.

(** X13. The listing never writes; it answers 200 or 400, and 400 exactly
    when the status given is not empty and none of the three lanes; an
    empty status lists every row, as no status does. *)
Theorem get_clients_rejects_unrecognized q t :
  (get_clients q t).2 = t ∧
  (code (get_clients q t).1 = 200 ∨ code (get_clients q t).1 = 400) ∧
  (code (get_clients q t).1 = 400 ↔ ∃ s, q = Some s ∧ s ≠ "" ∧ ¬ recognized s) ∧
  get_clients (Some "") t = get_clients None t.
Proof.
  unfold get_clients, recognized. destruct q as [s|]; cbn.
  - destruct (decide (s ≠ "")) as [Hs|Hs]; cbn.
    + case_decide as Hr; cbn.
      * split_and!; [done|by right| |done]. split; [|done].
        intros _. exists s. split_and!; [done..|]. tauto.
      * split_and!; [done|by left| |done]. split; [done|].
        intros (s' & [= <-] & _ & Hn). destruct Hr. split_and!; intros ->; tauto.
    + split_and!; [done|by left| |done]. split; [done|].
      by intros (s' & [= <-] & ? & _).
  - split_and!; [done|by left| |done]. split; [done|].
    by intros (s' & ? & _).
Qed.

(** X14. On a table with unique ids, a row the update handler has moved
    to a status that is none of the three lanes is in the table, with that
    status, and in no filtered listing: the listing refuses its status and
    lists other rows for the three it accepts. *)
Theorem unrecognized_row_is_unlisted t z c0 s :
  NoDup (id <$> t) →
  find (has_id (Int z)) t = Some c0 →
  s ≠ "" → ¬ recognized s →
  let t' := (put_client (Request (Int z) (Some s) None) t).2 in
  (∃ c, c ∈ t' ∧ id c = z ∧ status c = s) ∧
  ∀ q rows,
    q ≠ "" → get_clients (Some q) t' = (Response 200 (Clients rows), t') →
    ∀ c, c ∈ rows → id c ≠ z.
Proof.
  intros Hnd Hf Hne Hs t'.
  pose proof (find_has_id _ _ _ Hf) as [_ [= ->]].
  destruct (status_step_target (Request (Int (id c0)) (Some s) None) t c0 Hnd Hf)
    as (c1 & t1 & Hst & Hnd1 & Hf1 & Hs1 & Hid & _).
  assert (t' = t1) as ->.
  { unfold t'. rewrite (put_client_found _ _ c0), Hst by done. cbn [snd].
    by rewrite priority_step_skip by auto. }
  unfold currentStatus in Hs1. cbn in Hs1. rewrite decide_True in Hs1 by done.
  pose proof (find_has_id _ _ _ Hf1) as [Hc1 _]. split.
  - exists c1. by rewrite <-Hid.
  - intros q rows Hq Hget c Hc E.
    destruct (decide (recognized q)) as [Hr|Hr].
    + rewrite get_clients_recognized in Hget by done.
      injection Hget as <-. apply elem_of_lane in Hc as [Hcq Hc].
      assert (c = c1) as -> by (eapply unique_id; [done..|congruence]).
      congruence.
    + unfold get_clients in Hget. rewrite decide_True in Hget by done.
      rewrite decide_True in Hget; [done|]. unfold recognized in Hr. tauto.
Qed.

(** X15. On a table with unique ids, the update handler answers 200
    exactly when the priority is absent, 0, or between 1 and N + 1, N
    being the number of rows of the effective lane of the snapshot other
    than the target; the status plays no part in it. *)
Theorem put_client_succeeds_iff req t c0 :
  NoDup (id <$> t) →
  find (has_id (params_id req)) t = Some c0 →
  let N := Z.of_nat (length (filter (λ c, ¬ has_id (params_id req) c)
                               (lane (currentStatus req c0) t))) in
  code (put_client req t).1 = 200 ↔
    body_priority req = None ∨ body_priority req = Some 0 ∨
    ∃ p, body_priority req = Some p ∧ 1 ≤ p ≤ N + 1.
Proof.
  intros Hnd Hf N.
  rewrite (put_client_found _ _ _ Hf).
  destruct (split_at_target _ _ _ Hnd Hf) as (ta & tb & -> & Hi & Hids & Hnd').
  assert (∃ c1 t1,
    status_step req c0 (ta ++ c0 :: tb) (ta ++ c0 :: tb) = ((), t1) ∧
    NoDup (id <$> t1) ∧ c1 ∈ lane (currentStatus req c0) t1 ∧ id c0 = id c1 ∧
    Z.of_nat (length (swimlane (Int (id c1)) (currentStatus req c0) t1)) = N)
    as (c1 & t1 & Hst & Hnd1 & Hc1 & Hid & HN).
  { subst N. rewrite Hi.
    destruct (status_step_cases req ta tb c0 Hids Hnd' Hi)
      as [[Hst Hcs] | (s & Hbs & Hne & Hs & Hcs & Hst)].
    - exists c0, (ta ++ c0 :: tb). rewrite Hcs.
      split_and!; [done..|apply elem_of_lane_middle|done|].
      by rewrite swimlane_length_snapshot.
    - exists (Client (id c0) s (Z.of_nat (length (lane s (ta ++ tb))) + 1)),
        (lane_changed ta tb c0 s).
      rewrite Hcs, ids_lane_changed. split_and!; [done..| |done|].
      + apply elem_of_lane. split; [done|]. apply elem_of_app. right. by left.
      + cbn [id]. by rewrite swimlane_length_changed. }
  rewrite Hst. cbn [snd]. rewrite Hid in Hi.
  destruct (priority_step_cases req c0 c1 t1 Hnd1 Hc1 Hid Hi)
    as [[Hpr Hn] | (p & Hp & Hp0 & [[Hv Hpr] | [Hv Hpr]])];
    rewrite Hpr; cbn.
  - split; [tauto|done].
  - split; [done|]. intros [Hn | [Hn | (p' & Hp' & Hr)]]; [congruence..|].
    assert (p' = p) as -> by congruence. lia.
  - split; [|done]. intros _. right. right. exists p. split; [done|lia].
Qed.

(** X16. On a table with unique ids, when the rows of the old lane are
    stored in ascending priority order, a lane change keeps the order of
    the rows that stay: of two of them, the one with the smaller priority
    before has the smaller priority after. *)
Theorem stored_order_is_kept t z c0 s r t' :
  NoDup (id <$> t) →
  find (has_id (Int z)) t = Some c0 →
  s ≠ "" → status c0 ≠ s →
  Sorted by_priority (lane (status c0) t) →
  put_client (Request (Int z) (Some s) None) t = (r, t') →
  ∀ a b a' b',
    a ∈ t → b ∈ t → status a = status c0 → status b = status c0 →
    id a ≠ z → id b ≠ z →
    a' ∈ t' → b' ∈ t' → id a' = id a → id b' = id b →
    priority a < priority b → priority a' < priority b'.
Proof.
  intros Hnd Hf Hne Hs Hsorted Hput a b a' b' Ha Hb Hsa Hsb Hza Hzb Ha' Hb'
    Hia Hib Hlt.
  destruct (split_at_target _ _ _ Hnd Hf) as (ta & tb & -> & [= ->] & Hids & Hnd').
  rewrite (put_client_found _ _ c0) in Hput by done.
  rewrite (status_step_change _ _ _ s) in Hput by done. cbn [params_id] in Hput.
  rewrite change_lane_split in Hput by done. cbn [snd] in Hput.
  rewrite priority_step_skip in Hput by auto. injection Hput as _ <-.
  set (L := lane (status c0) (ta ++ tb)) in *.
  assert (NoDup (id <$> L)) as HndL by (by apply NoDup_ids_filter).
  assert (StronglySorted by_priority L) as HL.
  { apply Sorted_StronglySorted; [apply _|].
    rewrite lane_with_target in Hsorted. unfold L. rewrite lane_app.
    apply Sorted_StronglySorted in Hsorted; [|apply _].
    apply StronglySorted_app in Hsorted as (H12 & H1 & [H2a H2]%StronglySorted_cons).
    apply StronglySorted_Sorted, StronglySorted_app. split_and!; [|done..].
    intros x1 x2 Hx1 Hx2. apply H12; [done|by right]. }
  assert (∀ x x', x ∈ ta ++ c0 :: tb → status x = status c0 → id x ≠ id c0 →
            x' ∈ reranked 0 (id <$> L) ta
                 ++ Client (id c0) s (Z.of_nat (length (lane s (ta ++ tb))) + 1)
                 :: reranked 0 (id <$> L) tb →
            id x' = id x →
            ∃ n, L !! n = Some x ∧ priority x' = Z.of_nat n + 1) as Hrank.
  { intros x x' Hx Hsx Hzx Hx' Hix.
    assert (x ∈ L) as HxL.
    { apply elem_of_lane. split; [done|].
      apply elem_of_app in Hx as [Hx | [->|Hx]%elem_of_cons];
        [apply elem_of_app; by left | done | apply elem_of_app; by right]. }
    apply list_elem_of_lookup_1 in HxL as [n Hn]. exists n. split; [done|].
    assert (x' ∈ reranked 0 (id <$> L) (ta ++ tb)) as Hx''.
    { rewrite reranked_app.
      apply elem_of_app in Hx' as [Hx' | [->|Hx']%elem_of_cons];
        [apply elem_of_app; by left | | apply elem_of_app; by right].
      cbn in Hix. congruence. }
    destruct (elem_of_reranked_rank _ _ _ _ Hx'') as (m & Hm & ->).
    - rewrite Hix. apply list_elem_of_fmap_2. by eapply list_elem_of_lookup_2.
    - rewrite Hix, (index_of_lookup _ _ n) in Hm; [|done|].
      + injection Hm as <-. lia.
      + by rewrite list_lookup_fmap, Hn. }
  destruct (Hrank a a') as (n & Hn & ->); [done..|].
  destruct (Hrank b b') as (m & Hm & ->); [done..|].
  destruct (decide (n < m)%nat) as [|Hge]; [lia|].
  destruct (decide (n = m)) as [->|Hne']; [assert (a = b) by congruence; subst; lia|].
  assert (m < n)%nat as Hmn by lia.
  pose proof (take_drop_middle L m b Hm) as Hsplit.
  rewrite <-Hsplit in HL.
  apply StronglySorted_app in HL as (_ & _ & [Hall _]%StronglySorted_cons).
  rewrite Forall_forall in Hall.
  assert (by_priority b a) as Hba.
  { apply Hall. apply list_elem_of_lookup. exists (n - S m)%nat.
    rewrite lookup_drop. by replace (S m + (n - S m))%nat with n by lia. }
  unfold by_priority in Hba. lia.
Qed.

(** ** The further properties on given tables *)

Lemma board0_ids : NoDup (id <$> board0).
Proof. by apply (bool_decide_unpack _). Qed.

Lemma put_client_200_body_witness :
  ∃ rows,
    sent (put_client (Request (Int 3) (Some "complete") (Some 1)) board).1
      = Clients rows ∧
    rows ≡ₚ (put_client (Request (Int 3) (Some "complete") (Some 1)) board).2 ∧
    Sorted by_status_priority rows.
Proof.
  apply (put_client_200_body (Request (Int 3) (Some "complete") (Some 1)) board
           _ _ (surjective_pairing _) eq_refl).
Defined.

Lemma priority_places_target_witness :
  find (has_id (Int 3))
    (put_client (Request (Int 3) (Some "complete") (Some 1)) board).2
    = Some (Client 3 "complete" 1) ∧
  lane_ok "complete"
    (put_client (Request (Int 3) (Some "complete") (Some 1)) board).2 ∧
  1 ≤ 1 ≤ Z.of_nat (length (lane "complete"
    (put_client (Request (Int 3) (Some "complete") (Some 1)) board).2)).
Proof.
  apply (priority_places_target (Request (Int 3) (Some "complete") (Some 1))
           board (Client 3 "backlog" 3) 1 _ _ board_ids eq_refl eq_refl
           ltac:(discriminate) (surjective_pairing _) eq_refl).
Defined.

Lemma reorder_shifts_between_witness :
  ∃ rows t',
    put_client (Request (Int 12) None (Some 2)) lane5
      = (Response 200 (Clients rows), t') ∧
    ∀ n c, lane5 !! n = Some c →
      (status c ≠ "backlog" → t' !! n = Some c) ∧
      (status c = "backlog" →
         ∃ q, t' !! n = Some (Client (id c) (status c) q) ∧
           (priority c = 5 → q = 2) ∧
           (priority c < 5 → priority c < 2 → q = priority c) ∧
           (priority c > 5 → priority c > 2 → q = priority c) ∧
           (2 ≤ priority c < 5 → q = priority c + 1) ∧
           (5 < priority c ≤ 2 → q = priority c - 1)).
Proof.
  apply (reorder_shifts_between lane5 12 (Client 12 "backlog" 5) None 2
           lane5_ids eq_refl (or_introl eq_refl)).
  - by apply (bool_decide_unpack _).
  - vm_compute. split; discriminate.
Defined.

Lemma put_client_idempotent_witness :
  put_client (Request (Int 3) (Some "complete") (Some 1))
    (put_client (Request (Int 3) (Some "complete") (Some 1)) board).2
  = put_client (Request (Int 3) (Some "complete") (Some 1)) board.
Proof.
  rewrite (surjective_pairing
             (put_client (Request (Int 3) (Some "complete") (Some 1)) board)) at 2.
  apply (put_client_idempotent (Request (Int 3) (Some "complete") (Some 1)) board
           _ _ board_ids (surjective_pairing _) eq_refl).
Defined.

Lemma reorder_round_trip_witness :
  (put_client (Request (Int 12) None (Some 5))
     (put_client (Request (Int 12) None (Some 2)) lane5).2).2 = lane5.
Proof.
  apply (reorder_round_trip lane5 12 (Client 12 "backlog" 5) 2 lane5_ids eq_refl).
  - by apply (bool_decide_unpack _).
  - vm_compute. split; discriminate.
Defined.

Lemma explicit_last_is_default_witness :
  put_client (Request (Int 3) (Some "complete") (Some 3)) board
    = put_client (Request (Int 3) (Some "complete") None) board.
Proof.
  apply (explicit_last_is_default board 3 (Client 3 "backlog" 3) "complete"
           board_ids eq_refl ltac:(discriminate) ltac:(discriminate)).
  by apply (bool_decide_unpack _).
Defined.

Lemma get_clients_lists_lane_witness :
  ∃ rows,
    get_clients (Some "backlog") board = (Response 200 (Clients rows), board) ∧
    rows `sublist_of` board ∧
    ∀ c, c ∈ rows ↔ c ∈ board ∧ status c = "backlog".
Proof.
  apply (get_clients_lists_lane "backlog" board). by left.
Defined.

Lemma get_clients_partition_witness :
  ∃ b p c,
    get_clients (Some "backlog") board = (Response 200 (Clients b), board) ∧
    get_clients (Some "in-progress") board = (Response 200 (Clients p), board) ∧
    get_clients (Some "complete") board = (Response 200 (Clients c), board) ∧
    get_clients None board = (Response 200 (Clients board), board) ∧
    b ++ p ++ c ≡ₚ board.
Proof.
  apply (get_clients_partition board).
  apply Forall_forall. by apply (bool_decide_unpack _).
Defined.

Lemma unrecognized_row_is_unlisted_witness :
  (∃ c, c ∈ (put_client (Request (Int 3) (Some "archived") None) board).2 ∧
        id c = 3 ∧ status c = "archived") ∧
  ∀ q rows,
    q ≠ "" →
    get_clients (Some q) (put_client (Request (Int 3) (Some "archived") None) board).2
      = (Response 200 (Clients rows),
         (put_client (Request (Int 3) (Some "archived") None) board).2) →
    ∀ c, c ∈ rows → id c ≠ 3.
Proof.
  apply (unrecognized_row_is_unlisted board 3 (Client 3 "backlog" 3) "archived"
           board_ids eq_refl ltac:(discriminate)).
  by apply (bool_decide_unpack _).
Defined.

Lemma put_client_succeeds_iff_witness :
  code (put_client (Request (Int 1) None (Some 3)) board).1 = 200 ↔
    Some 3 = None ∨ Some 3 = Some 0 ∨ ∃ p, Some 3 = Some p ∧ 1 ≤ p ≤ 2 + 1.
Proof.
  apply (put_client_succeeds_iff (Request (Int 1) None (Some 3)) board
           (Client 1 "backlog" 2) board_ids eq_refl).
Defined.

Lemma stored_order_is_kept_witness :
  priority (Client 1 "backlog" 1) < priority (Client 2 "backlog" 2).
Proof.
  apply (stored_order_is_kept board0 3 (Client 3 "backlog" 3) "complete"
           _ _ board0_ids eq_refl ltac:(discriminate) ltac:(discriminate)
           ltac:(by apply (bool_decide_unpack _)) (surjective_pairing _)
           (Client 1 "backlog" 1) (Client 2 "backlog" 2)
           (Client 1 "backlog" 1) (Client 2 "backlog" 2));
    [by apply (bool_decide_unpack _)..|done|done|done|done|
     by apply (bool_decide_unpack _)|by apply (bool_decide_unpack _)|
     done|done|done].
Defined.
